(** * reconcileprune: generation-aware reconciliation and pruning

    A shallow embedding of [pruner.go], [types.go] and [options.go] of
    github.com/guilhem/reconcileprune, and the properties of the pruning
    session that the design document states about it.

    Conventions of the embedding.
    - Go's [int64] is [Z]; the package only compares and copies
      generations, so no wrap-around arithmetic occurs.
    - Go strings are [string]; [fmt.Sprintf] with [%s] verbs is written
      out with [+:+].
    - [map[string]struct{}] is [gset string].
    - The ledger [*[]ManagedChild] and the result [*Result] that the
      Pruner borrows are fields of the [Pruner] value, which every method
      takes and gives back (explicit state passing).
    - A call through a nil [*runtime.Scheme] panics in Go; functions that
      can reach one return an [Outcome].
    - Everything that lives in k8s.io or controller-runtime (the cluster
      behind [client.Client], [runtime.Scheme], [schema.ParseGroupVersion],
      [apierrors.IsNotFound]) is a collaborator: a method of the
      [Kubernetes] class or a record of functions held by the Pruner.
    - The callbacks a caller passes in (the error handler, the status
      update) are functions of their arguments: they are given no way to
      reach into the Pruner, and a nil callback is not modelled.
    - Calls that leave the package are recorded in a log kept beside the
      cluster state, so that "no deletion was attempted" and "the error
      policy was not consulted" are statements about that log. *)

From Stdlib Require Import ZArith Lia Ascii.
From stdpp Require Import base strings list gmap.

Local Open Scope Z_scope.

(* ================================================================== *)
(** * Data model *)
(* ================================================================== *)

Abbreviation int64 := Z (only parsing).

#[local] Set Warnings "-register-all".

(** Go's [error] values.  [External] is an error made outside this
    package (by the deletion transport, the type resolver, the status
    update callback); [Errorf] is [fmt.Errorf] with its format string and
    the cause its [%w] verb wraps, if any (the arguments of the other
    verbs are not kept); [Join] is what [errors.Join] builds.  A nil
    error is [None : option error]. *)
Inductive error : Type :=
  | External (code : string)
  | Errorf (format : string) (wrapped : option error)
  | Join (errs : list error).

(** A function result [(T, error)]. *)
Inductive Res (A : Type) : Type :=
  | Ok (a : A)
  | Err (e : error).
Arguments Ok {A} a.
Arguments Err {A} e.

(** A call either returns or panics (nil pointer dereference). *)
Inductive Outcome (A : Type) : Type :=
  | Returned (a : A)
  | Panicked.
Arguments Returned {A} a.
Arguments Panicked {A}.

(** [errors.Join]: nil when there is nothing to join. *)
Definition errors_Join (errs : list error) : option error :=
  match errs with
  | [] => None
  | _ :: _ => Some (Join errs)
  end.

(** [errors.Is]-style reachability: [wraps e c] when [c] is [e] itself
    or is reached from [e] through [%w] and [Join] links. *)
Inductive wraps : error -> error -> Prop :=
  | wraps_self (e : error) : wraps e e
  | wraps_Errorf (format : string) (e c : error) :
      wraps e c -> wraps (Errorf format (Some e)) c
  | wraps_Join (es : list error) (e c : error) :
      In e es -> wraps e c -> wraps (Join es) c.

Module corev1.

(** [corev1.ObjectReference], with the seven fields of the Kubernetes
    type; Go's [==] on it compares all of them. *)
Record ObjectReference : Type := mkObjectReference {
  Kind : string;
  Namespace : string;
  Name : string;
  UID : string;
  APIVersion : string;
  ResourceVersion : string;
  FieldPath : string;
}.

#[global] Instance ObjectReference_eq_dec : EqDecision ObjectReference.
Proof. solve_decision. Defined.

End corev1.

Module schema.

Record GroupVersion : Type := mkGroupVersion {
  Group : string;
  Version : string;
}.

Record GroupVersionKind : Type := mkGroupVersionKind {
  gvkGroup : string;
  gvkVersion : string;
  gvkKind : string;
}.

#[global] Instance GroupVersionKind_eq_dec : EqDecision GroupVersionKind.
Proof. solve_decision. Defined.

(** [gvk.GroupVersion()] *)
Definition GroupVersionOf (gvk : GroupVersionKind) : GroupVersion :=
  {| Group := gvkGroup gvk; Version := gvkVersion gvk |}.

End schema.

(** [client.Object], reduced to what the package reads and writes: the
    dynamic Go type and the object metadata. *)
Record Object : Type := mkObject {
  GoType : string;
  GetName : string;
  GetNamespace : string;
  GetUID : string;
  GetGeneration : int64;
}.

Definition SetName (name : string) (o : Object) : Object :=
  {| GoType := GoType o; GetName := name; GetNamespace := GetNamespace o;
     GetUID := GetUID o; GetGeneration := GetGeneration o |}.

Definition SetNamespace (ns : string) (o : Object) : Object :=
  {| GoType := GoType o; GetName := GetName o; GetNamespace := ns;
     GetUID := GetUID o; GetGeneration := GetGeneration o |}.

Definition SetGeneration (g : int64) (o : Object) : Object :=
  {| GoType := GoType o; GetName := GetName o; GetNamespace := GetNamespace o;
     GetUID := GetUID o; GetGeneration := g |}.

(** What [scheme.New] hands back: a [runtime.Object] that may or may not
    implement [client.Object]. *)
Inductive RuntimeObject : Type :=
  | ClientObject (o : Object)
  | OtherObject.

(** [*runtime.Scheme], the type resolver. *)
Record Scheme : Type := mkScheme {
  ObjectKinds : Object -> Res (list schema.GroupVersionKind);
  New : schema.GroupVersionKind -> Res RuntimeObject;
}.

(** ** types.go *)

(** [ManagedChild] *)
Record ManagedChild : Type := mkManagedChild {
  ObjectReference : corev1.ObjectReference;
  ObservedGeneration : int64;
}.

#[global] Instance ManagedChild_eq_dec : EqDecision ManagedChild.
Proof. solve_decision. Defined.

(** [Result] *)
Record Result : Type := mkResult {
  Pruned : list string;
  Skipped : list string;
}.

(** [ErrorHandlerFunc]; the context argument carries nothing the package
    reads and is left out. *)
Definition ErrorHandlerFunc : Type := error -> Object -> option error.

#[global] Instance Object_eq_dec : EqDecision Object.
Proof. solve_decision. Defined.

(** ** Collaborators *)

(** What the package takes from Kubernetes: the state of the cluster
    behind [client.Client], and the functions of k8s.io/apimachinery that
    it calls. *)
Class Kubernetes : Type := {
  Cluster : Type;
  (** [schema.ParseGroupVersion] *)
  ParseGroupVersion : string -> Res schema.GroupVersion;
  (** [GroupVersion.String] *)
  GroupVersionString : schema.GroupVersion -> string;
  (** [apierrors.IsNotFound] *)
  IsNotFound : error -> bool;
}.

(** Calls that leave the package, in the order they were made. *)
Inductive Event : Type :=
  | EvDelete (obj : Object)
  | EvErrorHandler (err : error) (obj : Object)
  | EvUpdateStatus.

(* ================================================================== *)
(** * pruner.go and options.go *)
(* ================================================================== *)

Section Package.
Context `{K : Kubernetes}.

(** [client.Client], the deletion transport: [Delete] acts on the
    cluster and reports an error or nil. *)
Record Client : Type := mkClient {
  Delete : Cluster -> Object -> Cluster * option error;
}.

(** Everything outside the Pruner that its calls touch: the cluster and
    the record of the calls made. *)
Record World : Type := mkWorld {
  cluster : Cluster;
  log : list Event;
}.

(** The [updateStatus] callback of [Prune]: it sees the ledger as it
    stands and persists it. *)
Definition UpdateStatusFunc : Type :=
  list ManagedChild -> Cluster -> Cluster * option error.

(** [Pruner].  [owner], [children] and [result] hold what the Go fields
    point to. *)
Record Pruner : Type := mkPruner {
  client : Client;
  scheme : option Scheme;
  dryRun : bool;
  errorHandler : ErrorHandlerFunc;
  owner : Object;
  children : list ManagedChild;
  desiredRefs : gset string;
  result : Result;
  lastAppliedGen : int64;
}.

Definition set_scheme (s : option Scheme) (p : Pruner) : Pruner :=
  mkPruner (client p) s (dryRun p) (errorHandler p) (owner p) (children p)
           (desiredRefs p) (result p) (lastAppliedGen p).

Definition set_dryRun (b : bool) (p : Pruner) : Pruner :=
  mkPruner (client p) (scheme p) b (errorHandler p) (owner p) (children p)
           (desiredRefs p) (result p) (lastAppliedGen p).

Definition set_errorHandler (h : ErrorHandlerFunc) (p : Pruner) : Pruner :=
  mkPruner (client p) (scheme p) (dryRun p) h (owner p) (children p)
           (desiredRefs p) (result p) (lastAppliedGen p).

Definition set_owner (o : Object) (p : Pruner) : Pruner :=
  mkPruner (client p) (scheme p) (dryRun p) (errorHandler p) o (children p)
           (desiredRefs p) (result p) (lastAppliedGen p).

Definition set_children (cs : list ManagedChild) (p : Pruner) : Pruner :=
  mkPruner (client p) (scheme p) (dryRun p) (errorHandler p) (owner p) cs
           (desiredRefs p) (result p) (lastAppliedGen p).

Definition set_desiredRefs (d : gset string) (p : Pruner) : Pruner :=
  mkPruner (client p) (scheme p) (dryRun p) (errorHandler p) (owner p)
           (children p) d (result p) (lastAppliedGen p).

Definition set_result (r : Result) (p : Pruner) : Pruner :=
  mkPruner (client p) (scheme p) (dryRun p) (errorHandler p) (owner p)
           (children p) (desiredRefs p) r (lastAppliedGen p).

Definition set_lastAppliedGen (g : int64) (p : Pruner) : Pruner :=
  mkPruner (client p) (scheme p) (dryRun p) (errorHandler p) (owner p)
           (children p) (desiredRefs p) (result p) g.

(** ** options.go *)

(** [defaultErrorHandler] *)
Definition defaultErrorHandler : ErrorHandlerFunc :=
  fun err obj => Some (Errorf "failed to delete %s: %w" (Some err)).

(** [Option], as the package builds them. *)
Inductive Option : Type :=
  | OptScheme (s : option Scheme)
  | OptDryRun (b : bool)
  | OptErrorHandler (h : ErrorHandlerFunc).

(** [WithScheme] *)
Definition WithScheme (s : option Scheme) : Pruner -> Pruner :=
  fun p => set_scheme s p.

(** Modelled from the spec: the dry-run configuration option for the
    Pruner of pruner.go, whose [dryRun] flag is the one that
    [pruneStaleResources] reads.  The body of [WithDryRun] in options.go
    assigns [p.deleteOpts], a field that pruner.go's [Pruner] does not
    declare; here the option, when given [true], sets the flag
    ("Dry-run flag (configuration option): when set, deletions are
    simulated"), and does nothing when given [false], as in options.go. *)
Definition WithDryRun (b : bool) : Pruner -> Pruner :=
  fun p => if b then set_dryRun true p else p.

(** [WithErrorHandler] *)
Definition WithErrorHandler (h : ErrorHandlerFunc) : Pruner -> Pruner :=
  fun p => set_errorHandler h p.

Definition applyOption (opt : Option) : Pruner -> Pruner :=
  match opt with
  | OptScheme s => WithScheme s
  | OptDryRun b => WithDryRun b
  | OptErrorHandler h => WithErrorHandler h
  end.

(** ** pruner.go *)

(** [getLastAppliedGeneration] *)
Definition getLastAppliedGeneration
    (children : list ManagedChild) (currentGen : int64) : int64 :=
  if decide (length children = 0%nat) then 0
  else
    let maxGen :=
      fold_left
        (fun maxGen child =>
           if decide (ObservedGeneration child > maxGen)
           then ObservedGeneration child else maxGen)
        children 0 in
    if decide (maxGen = currentGen) then currentGen else maxGen.

(** [NewPruner] *)
Definition NewPruner (c : Client) (owner : Object)
    (children : list ManagedChild) (opts : list Option) : Pruner :=
  let p :=
    {| client := c; scheme := None; dryRun := false;
       errorHandler := defaultErrorHandler;
       owner := owner; children := children;
       desiredRefs := ∅;
       result := {| Pruned := []; Skipped := [] |};
       lastAppliedGen := 0 |} in
  let currentGen := GetGeneration owner in
  let p := set_lastAppliedGen (getLastAppliedGeneration children currentGen) p in
  fold_left (fun p opt => applyOption opt p) opts p.

(** [makeRefKey] *)
Definition makeRefKey (ref : corev1.ObjectReference) : string :=
  corev1.APIVersion ref +:+ "/" +:+ corev1.Kind ref +:+ "/"
    +:+ corev1.Namespace ref +:+ "/" +:+ corev1.Name ref.

(** A string without the separator that [makeRefKey] puts between the
    fields. *)
Fixpoint slashFree (s : string) : bool :=
  match s with
  | EmptyString => true
  | String a s' => negb (Ascii.eqb a "/"%char) && slashFree s'
  end.

(** [formatObjectReference] *)
Definition formatObjectReference (ref : corev1.ObjectReference) : string :=
  if decide (corev1.Namespace ref ≠ "")
  then corev1.Kind ref +:+ " " +:+ corev1.Namespace ref +:+ "/" +:+ corev1.Name ref
  else corev1.Kind ref +:+ " " +:+ corev1.Name ref.

(** [getGVK] *)
Definition getGVK (p : Pruner) (obj : Object) : Res schema.GroupVersionKind :=
  match scheme p with
  | None => Err (Errorf "scheme is required but not set" None)
  | Some s =>
      match ObjectKinds s obj with
      | Err err => Err (Errorf "failed to get GVK: %w" (Some err))
      | Ok gvks =>
          match gvks with
          | [] => Err (Errorf "no GVK found for object" None)
          | gvk0 :: _ => Ok gvk0
          end
      end
  end.

(** [makeObjectReference] *)
Definition makeObjectReference (p : Pruner) (obj : Object)
    : Res corev1.ObjectReference :=
  match getGVK p obj with
  | Err err => Err err
  | Ok gvk =>
      Ok {| corev1.APIVersion := GroupVersionString (schema.GroupVersionOf gvk);
            corev1.Kind := schema.gvkKind gvk;
            corev1.Namespace := GetNamespace obj;
            corev1.Name := GetName obj;
            corev1.UID := GetUID obj;
            corev1.ResourceVersion := "";
            corev1.FieldPath := "" |}
  end.

(** [objectFromReference].  [p.scheme.New] on a nil scheme panics. *)
Definition objectFromReference (p : Pruner) (ref : corev1.ObjectReference)
    : Outcome (Res Object) :=
  match ParseGroupVersion (corev1.APIVersion ref) with
  | Err err => Returned (Err (Errorf "invalid APIVersion in reference: %w" (Some err)))
  | Ok gv =>
      let gvk :=
        {| schema.gvkGroup := schema.Group gv;
           schema.gvkVersion := schema.Version gv;
           schema.gvkKind := corev1.Kind ref |} in
      match scheme p with
      | None => Panicked
      | Some s =>
          match New s gvk with
          | Err err =>
              Returned (Err (Errorf "failed to create object for GVK %s: %w" (Some err)))
          | Ok OtherObject =>
              Returned (Err (Errorf "object does not implement client.Object" None))
          | Ok (ClientObject clientObj) =>
              Returned (Ok (SetNamespace (corev1.Namespace ref)
                              (SetName (corev1.Name ref) clientObj)))
          end
      end
  end.

(** [upsertChild] *)
Fixpoint upsertChild (children : list ManagedChild)
    (ref : corev1.ObjectReference) (observedGeneration : int64)
    : list ManagedChild :=
  match children with
  | [] =>
      [ {| ObjectReference := ref; ObservedGeneration := observedGeneration |} ]
  | child :: rest =>
      if decide (ObjectReference child = ref)
      then {| ObjectReference := ObjectReference child;
              ObservedGeneration := observedGeneration |} :: rest
      else child :: upsertChild rest ref observedGeneration
  end.

(** [MarkReconciled] *)
Definition MarkReconciled (p : Pruner) (obj : Object) : Pruner * option error :=
  if decide (GetUID obj = "")
  then (p, Some (Errorf "object %s/%s must have a UID (has it been created in the cluster?)" None))
  else
    match makeObjectReference p obj with
    | Err err =>
        (p, Some (Errorf "failed to generate reference for object: %w" (Some err)))
    | Ok ref =>
        let refKey := makeRefKey ref in
        let p := set_desiredRefs ({[ refKey ]} ∪ desiredRefs p) p in
        let currentGen := GetGeneration (owner p) in
        let p := set_children (upsertChild (children p) ref currentGen) p in
        (p, None)
    end.

(** ** The classification of ledger entries *)

(** The two tests at the head of the loop of [pruneStaleResources], by
    the names the design document gives them: an entry is kept when its
    key is in the desired set (Keep-desired) or its generation is above
    the baseline (Keep-fresh), and is stale otherwise. *)
Definition keepDesired (desiredRefs : gset string) (e : ManagedChild) : Prop :=
  makeRefKey (ObjectReference e) ∈ desiredRefs.

Definition keepFresh (lastAppliedGen : int64) (e : ManagedChild) : Prop :=
  ObservedGeneration e > lastAppliedGen.

Definition kept (desiredRefs : gset string) (lastAppliedGen : int64)
    (e : ManagedChild) : Prop :=
  keepDesired desiredRefs e \/ keepFresh lastAppliedGen e.

Definition stale (desiredRefs : gset string) (lastAppliedGen : int64)
    (e : ManagedChild) : Prop :=
  ~ keepDesired desiredRefs e /\ ~ keepFresh lastAppliedGen e.

#[global] Instance kept_dec (d : gset string) (g : int64) (e : ManagedChild) :
  Decision (kept d g e).
Proof. unfold kept, keepDesired, keepFresh. apply _. Defined.

#[global] Instance stale_dec (d : gset string) (g : int64) (e : ManagedChild) :
  Decision (stale d g e).
Proof. unfold stale, keepDesired, keepFresh. apply _. Defined.

(** [deleteResource] *)
Definition deleteResource (p : Pruner) (obj : Object) (w : World)
    : World * option error :=
  let '(c, r) := Delete (client p) (cluster w) obj in
  let w := {| cluster := c; log := log w ++ [EvDelete obj] |} in
  match r with
  | Some err => if IsNotFound err then (w, None) else (w, Some err)
  | None => (w, None)
  end.

(** The variables that the loop of [pruneStaleResources] updates. *)
Record LoopState : Type := mkLoopState {
  newChildren : list ManagedChild;
  pruneErrors : list error;
  loopResult : Result;
  loopWorld : World;
}.

(** [newChildren = append(newChildren, child)] *)
Definition keepChild (child : ManagedChild) (s : LoopState) : LoopState :=
  mkLoopState (newChildren s ++ [child]) (pruneErrors s) (loopResult s) (loopWorld s).

(** [pruneErrors = append(pruneErrors, err)] *)
Definition appendError (err : error) (s : LoopState) : LoopState :=
  mkLoopState (newChildren s) (pruneErrors s ++ [err]) (loopResult s) (loopWorld s).

(** [result.Pruned = append(result.Pruned, refStr)] *)
Definition appendPruned (refStr : string) (s : LoopState) : LoopState :=
  mkLoopState (newChildren s) (pruneErrors s)
    {| Pruned := Pruned (loopResult s) ++ [refStr]; Skipped := Skipped (loopResult s) |}
    (loopWorld s).

(** [result.Skipped = append(result.Skipped, refStr)] *)
Definition appendSkipped (refStr : string) (s : LoopState) : LoopState :=
  mkLoopState (newChildren s) (pruneErrors s)
    {| Pruned := Pruned (loopResult s); Skipped := Skipped (loopResult s) ++ [refStr] |}
    (loopWorld s).

Definition setWorld (w : World) (s : LoopState) : LoopState :=
  mkLoopState (newChildren s) (pruneErrors s) (loopResult s) w.

(** The call [p.errorHandler(ctx, err, obj)], recorded in the log. *)
Definition callErrorHandler (p : Pruner) (err : error) (obj : Object) (w : World)
    : World * option error :=
  ({| cluster := cluster w; log := log w ++ [EvErrorHandler err obj] |},
   errorHandler p err obj).

(** One iteration of the loop in [pruneStaleResources]. *)
Definition pruneChild (p : Pruner) (desiredRefs : gset string)
    (lastAppliedGen : int64) (child : ManagedChild) (s : LoopState)
    : Outcome LoopState :=
  let childKey := makeRefKey (ObjectReference child) in
  if decide (childKey ∈ desiredRefs) then Returned (keepChild child s)
  else if decide (ObservedGeneration child > lastAppliedGen)
  then Returned (keepChild child s)
  else
    match objectFromReference p (ObjectReference child) with
    | Panicked => Panicked
    | Returned (Err err) =>
        Returned
          (appendError
             (Errorf "failed to create object from reference %s: %w" (Some err)) s)
    | Returned (Ok obj) =>
        let refStr := formatObjectReference (ObjectReference child) in
        if dryRun p then Returned (appendSkipped refStr s)
        else
          let '(w, derr) := deleteResource p obj (loopWorld s) in
          match derr with
          | Some err =>
              let '(w, handledErr) := callErrorHandler p err obj w in
              match handledErr with
              | Some herr =>
                  Returned (keepChild child (appendError herr (setWorld w s)))
              | None => Returned (appendPruned refStr (setWorld w s))
              end
          | None => Returned (appendPruned refStr (setWorld w s))
          end
    end.

(** The loop [for _, child := range *children]. *)
Fixpoint pruneLoop (p : Pruner) (desiredRefs : gset string)
    (lastAppliedGen : int64) (children : list ManagedChild) (s : LoopState)
    : Outcome LoopState :=
  match children with
  | [] => Returned s
  | child :: rest =>
      match pruneChild p desiredRefs lastAppliedGen child s with
      | Panicked => Panicked
      | Returned s' => pruneLoop p desiredRefs lastAppliedGen rest s'
      end
  end.

(** [pruneStaleResources]: the new ledger, the result, the world and the
    errors it returns. *)
Definition pruneStaleResources (p : Pruner) (children : list ManagedChild)
    (desiredRefs : gset string) (lastAppliedGen : int64) (result : Result)
    (w : World) : Outcome LoopState :=
  pruneLoop p desiredRefs lastAppliedGen children
    {| newChildren := []; pruneErrors := []; loopResult := result; loopWorld := w |}.

(** The call [updateStatus(ctx)], recorded in the log. *)
Definition callUpdateStatus (updateStatus : UpdateStatusFunc) (p : Pruner)
    (w : World) : World * option error :=
  let '(c, r) := updateStatus (children p) (cluster w) in
  ({| cluster := c; log := log w ++ [EvUpdateStatus] |}, r).

(** [Prune]: the Pruner and the world after the call, and the result
    and error it returns. *)
Definition Prune (p : Pruner) (updateStatus : UpdateStatusFunc) (w : World)
    : Outcome (Pruner * World * (Result * option error)) :=
  let currentGen := GetGeneration (owner p) in
  let success (p : Pruner) (w : World) :=
    let '(w, err) := callUpdateStatus updateStatus p w in
    match err with
    | Some err =>
        Returned (p, w, (result p,
          Some (Errorf "failed to update status after successful reconcile: %w" (Some err))))
    | None => Returned (p, w, (result p, None))
    end in
  if decide (currentGen > lastAppliedGen p) then
    match pruneStaleResources p (children p) (desiredRefs p) (lastAppliedGen p)
            (result p) w with
    | Panicked => Panicked
    | Returned s =>
        let p := set_result (loopResult s) (set_children (newChildren s) p) in
        let w := loopWorld s in
        if decide (0 < length (pruneErrors s))%nat then
          let err := errors_Join (pruneErrors s) in
          let '(w, updateErr) := callUpdateStatus updateStatus p w in
          match updateErr with
          | Some updateErr =>
              Returned (p, w, (result p,
                Some (Errorf "failed to update status after prune errors: %w" (Some updateErr))))
          | None => Returned (p, w, (result p, err))
          end
        else success p w
    end
  else success p w.

(** What one iteration may do to the loop variables. *)
Inductive iteration (p : Pruner) (d : gset string) (g : Z)
    (e : ManagedChild) (s : LoopState) : LoopState -> Prop :=
  | it_kept :
      kept d g e ->
      iteration p d g e s (keepChild e s)
  | it_unbuildable (cause : error) :
      stale d g e ->
      objectFromReference p (ObjectReference e) = Returned (Err cause) ->
      iteration p d g e s
        (appendError
           (Errorf "failed to create object from reference %s: %w" (Some cause)) s)
  | it_skipped (obj : Object) :
      stale d g e ->
      objectFromReference p (ObjectReference e) = Returned (Ok obj) ->
      dryRun p = true ->
      iteration p d g e s
        (appendSkipped (formatObjectReference (ObjectReference e)) s)
  | it_deleted (obj : Object) (c : Cluster) (r : option error) :
      stale d g e ->
      objectFromReference p (ObjectReference e) = Returned (Ok obj) ->
      dryRun p = false ->
      Delete (client p) (cluster (loopWorld s)) obj = (c, r) ->
      match r with Some err => IsNotFound err = true | None => True end ->
      iteration p d g e s
        (appendPruned (formatObjectReference (ObjectReference e))
           (setWorld {| cluster := c;
                        log := log (loopWorld s) ++ [EvDelete obj] |} s))
  | it_ignored (obj : Object) (c : Cluster) (derr : error) :
      stale d g e ->
      objectFromReference p (ObjectReference e) = Returned (Ok obj) ->
      dryRun p = false ->
      Delete (client p) (cluster (loopWorld s)) obj = (c, Some derr) ->
      IsNotFound derr = false ->
      errorHandler p derr obj = None ->
      iteration p d g e s
        (appendPruned (formatObjectReference (ObjectReference e))
           (setWorld {| cluster := c;
                        log := log (loopWorld s)
                                 ++ [EvDelete obj] ++ [EvErrorHandler derr obj] |} s))
  | it_failed (obj : Object) (c : Cluster) (derr herr : error) :
      stale d g e ->
      objectFromReference p (ObjectReference e) = Returned (Ok obj) ->
      dryRun p = false ->
      Delete (client p) (cluster (loopWorld s)) obj = (c, Some derr) ->
      IsNotFound derr = false ->
      errorHandler p derr obj = Some herr ->
      iteration p d g e s
        (keepChild e
           (appendError herr
              (setWorld {| cluster := c;
                           log := log (loopWorld s)
                                    ++ [EvDelete obj] ++ [EvErrorHandler derr obj] |} s))).

(** The loop variables only ever grow at their ends. *)
Record grows (s s' : LoopState) : Prop := mkGrows {
  grows_newChildren : newChildren s `prefix_of` newChildren s';
  grows_pruneErrors : pruneErrors s `prefix_of` pruneErrors s';
  grows_Pruned : Pruned (loopResult s) `prefix_of` Pruned (loopResult s');
  grows_Skipped : Skipped (loopResult s) `prefix_of` Skipped (loopResult s');
  grows_log : log (loopWorld s) `prefix_of` log (loopWorld s');
}.

(** The error that [Prune] returns, from the errors of the loop and the
    outcome of the status update. *)
Definition returnedError (pruneErrors : list error) (updateErr : option error)
    : option error :=
  match pruneErrors, updateErr with
  | [], Some err =>
      Some (Errorf "failed to update status after successful reconcile: %w" (Some err))
  | [], None => None
  | _ :: _, Some updateErr =>
      Some (Errorf "failed to update status after prune errors: %w" (Some updateErr))
  | _ :: _, None => errors_Join pruneErrors
  end.

(** ** A reconciliation session

    What a caller does with a Pruner between [NewPruner] and [Prune]:
    it marks resources, and the owner it lent may meanwhile be given a
    new generation ([owner.SetGeneration]). *)
Inductive SessionStep : Type :=
  | Mark (obj : Object)
  | OwnerSetGeneration (g : int64).

Definition sessionStep (p : Pruner) (st : SessionStep) : Pruner :=
  match st with
  | Mark obj => fst (MarkReconciled p obj)
  | OwnerSetGeneration g => set_owner (SetGeneration g (owner p)) p
  end.

Definition session (p : Pruner) (steps : list SessionStep) : Pruner :=
  fold_left sessionStep steps p.

(** The reference that [MarkReconciled p obj] marks, when it succeeds. *)
Definition markedRef (p : Pruner) (obj : Object) : option corev1.ObjectReference :=
  if decide (GetUID obj = "") then None
  else match makeObjectReference p obj with
       | Err _ => None
       | Ok ref => Some ref
       end.

(** The references marked by the successful [MarkReconciled] calls of a
    session. *)
Fixpoint markedRefs (p : Pruner) (steps : list SessionStep)
    : list corev1.ObjectReference :=
  match steps with
  | [] => []
  | st :: rest =>
      match st with
      | Mark obj =>
          match markedRef p obj with
          | Some ref => [ref]
          | None => []
          end
      | OwnerSetGeneration _ => []
      end ++ markedRefs (sessionStep p st) rest
  end.

(** [obj] is the handle that the pruning loop builds for the stale
    entry [e]. *)
Definition staleHandle (p : Pruner) (d : gset string) (g : int64)
    (e : ManagedChild) (obj : Object) : Prop :=
  stale d g e
  /\ objectFromReference p (ObjectReference e) = Returned (Ok obj).

End Package.

(* ================================================================== *)
(** * The baseline rule of the design document *)
(* ================================================================== *)

(** The maximum [observedGeneration] of a ledger that has a first entry
    and possibly more. *)
Definition maxObservedGeneration (first : ManagedChild)
    (rest : list ManagedChild) : int64 :=
  fold_left (fun m c => Z.max m (ObservedGeneration c)) rest
    (ObservedGeneration first).

(** The four steps of the design document, section 4.2, as worded: 0 for
    an empty ledger; otherwise the maximum, which is replaced by the
    current generation when it equals it. *)
Definition baselineFourSteps (children : list ManagedChild)
    (currentGen : int64) : int64 :=
  match children with
  | [] => 0
  | first :: rest =>
      let m := maxObservedGeneration first rest in
      if decide (m = currentGen) then currentGen else m
  end.

(** The simpler wording of its design notes:
    [max(observedGeneration, default 0)]. *)
Definition baselineMaxDefault (children : list ManagedChild) : int64 :=
  match children with
  | [] => 0
  | first :: rest => maxObservedGeneration first rest
  end.

(* ================================================================== *)
(** * The string helpers of the package's tests *)
(* ================================================================== *)

(** The loop of [containsAt], from index [i] with [n] iterations left;
    [s[i:i+len(substr)]] is [String.substring i (String.length substr) s]. *)
Fixpoint containsAtLoop (s substr : string) (i n : nat) : bool :=
  match n with
  | O => false
  | S n' =>
      if bool_decide (String.substring i (String.length substr) s = substr)
      then true
      else containsAtLoop s substr (S i) n'
  end.

(** [containsAt]: [i] runs from 0 while [i <= len(s)-len(substr)], in
    Go's signed integers. *)
Definition containsAt (s substr : string) : bool :=
  containsAtLoop s substr 0
    (Z.to_nat (Z.of_nat (String.length s) - Z.of_nat (String.length substr) + 1)).

(** [contains] *)
Definition contains (s substr : string) : bool :=
  bool_decide (String.length substr <= String.length s)%nat
  && (bool_decide (s = substr)
      || (bool_decide (String.length substr < String.length s)%nat
          && containsAt s substr)).

(* ================================================================== *)
(** * A test double of the collaborators *)
(* ================================================================== *)

(** A small stand-in for the fake client and the scheme that the tests
    of the package build: it knows the Deployment and Service types, and
    refuses to delete objects named [locked]. *)

Definition fakeParseGroupVersion (gv : string) : Res schema.GroupVersion :=
  if decide (gv = "v1")
  then Ok {| schema.Group := ""; schema.Version := "v1" |}
  else if decide (gv = "apps/v1")
  then Ok {| schema.Group := "apps"; schema.Version := "v1" |}
  else Err (External "unexpected GroupVersion string").

Definition fakeGroupVersionString (gv : schema.GroupVersion) : string :=
  if decide (schema.Group gv = "") then schema.Version gv
  else schema.Group gv +:+ "/" +:+ schema.Version gv.

Definition fakeIsNotFound (e : error) : bool :=
  match e with
  | External code => bool_decide (code = "NotFound")
  | _ => false
  end.

(** The objects that exist in the fake cluster: type, namespace, name. *)
Definition FakeCluster : Type := list (string * string * string).

Definition fakeKubernetes : Kubernetes :=
  {| Cluster := FakeCluster;
     ParseGroupVersion := fakeParseGroupVersion;
     GroupVersionString := fakeGroupVersionString;
     IsNotFound := fakeIsNotFound |}.

Definition fakeDelete (c : FakeCluster) (obj : Object)
    : FakeCluster * option error :=
  let key := (GoType obj, GetNamespace obj, GetName obj) in
  if decide (GetName obj = "locked") then (c, Some (External "Forbidden"))
  else if decide (key ∈ c)
  then (filter (fun k => k ≠ key) c, None)
  else (c, Some (External "NotFound")).

Definition fakeClient : @Client fakeKubernetes :=
  @mkClient fakeKubernetes fakeDelete.

Definition fakeScheme : Scheme :=
  {| ObjectKinds := fun obj =>
       if decide (GoType obj = "Deployment")
       then Ok [schema.mkGroupVersionKind "apps" "v1" "Deployment"]
       else if decide (GoType obj = "Service")
       then Ok [schema.mkGroupVersionKind "" "v1" "Service"]
       else Err (External "no kind is registered");
     New := fun gvk =>
       if decide (gvk = schema.mkGroupVersionKind "apps" "v1" "Deployment")
       then Ok (ClientObject (mkObject "Deployment" "" "" "" 0))
       else if decide (gvk = schema.mkGroupVersionKind "" "v1" "Service")
       then Ok (ClientObject (mkObject "Service" "" "" "" 0))
       else Err (External "no kind is registered") |}.

(** The status update of the tests, which succeeds, and one that fails. *)
Definition fakeUpdateStatus : @UpdateStatusFunc fakeKubernetes :=
  fun _ c => (c, None).

Definition failingUpdateStatus : @UpdateStatusFunc fakeKubernetes :=
  fun _ c => (c, Some (External "Conflict")).

(** The parent of the tests at a given generation. *)
Definition testOwner (generation : Z) : Object :=
  mkObject "TestCR" "test-owner" "default" "test-uid" generation.

(** A Deployment of the tests, by name and UID. *)
Definition testDeployment (name uid : string) : Object :=
  mkObject "Deployment" name "default" uid 0.

(** The reference that the package stores for such a Deployment. *)
Definition deploymentRef (name uid : string) : corev1.ObjectReference :=
  corev1.mkObjectReference "Deployment" "default" name uid "apps/v1" "" "".

Definition emptyWorld (c : FakeCluster) : @World fakeKubernetes :=
  @mkWorld fakeKubernetes c [].

(** ** Ledgers and sessions of the scenarios *)

Definition entry (name uid : string) (generation : Z) : ManagedChild :=
  {| ObjectReference := deploymentRef name uid; ObservedGeneration := generation |}.

Definition withFakeScheme : list Option :=
  [OptScheme (Some fakeScheme)].

(** Scenario B of the design document: X and Y stamped at generation 1,
    the parent now at generation 2, only Y marked. *)
Definition ledgerXY : list ManagedChild :=
  [entry "x" "uid-x" 1; entry "y" "uid-y" 1].

Definition clusterXY : FakeCluster :=
  [("Deployment", "default", "x"); ("Deployment", "default", "y")].

Definition scenarioB_steps : list SessionStep :=
  [Mark (testDeployment "y" "uid-y")].

Definition scenarioB : @Pruner fakeKubernetes :=
  session (NewPruner fakeClient (testOwner 2) ledgerXY withFakeScheme)
    scenarioB_steps.


(** Scenario D: the parent still at generation 1. *)
Definition scenarioD : @Pruner fakeKubernetes :=
  session (NewPruner fakeClient (testOwner 1) ledgerXY withFakeScheme)
    scenarioB_steps.

(** Scenario E: the entry [locked], which the cluster refuses to delete,
    followed by X; nothing is marked. *)
Definition ledgerLockedX : list ManagedChild :=
  [entry "locked" "uid-l" 1; entry "x" "uid-x" 1].

Definition clusterLockedX : FakeCluster :=
  [("Deployment", "default", "locked"); ("Deployment", "default", "x")].

Definition scenarioE : @Pruner fakeKubernetes :=
  NewPruner fakeClient (testOwner 2) ledgerLockedX withFakeScheme.

(** The handle that [objectFromReference] builds for a Deployment. *)
Definition deploymentHandle (name : string) : Object :=
  mkObject "Deployment" name "default" "" 0.

(** [X] was recreated in the cluster under a new UID and is marked under
    that UID, while the ledger still holds its old reference. *)
Definition ledgerOldX : list ManagedChild := [entry "x" "uid-old" 1].

Definition recreatedX_steps : list SessionStep :=
  [Mark (testDeployment "x" "uid-new")].

Definition recreatedX : @Pruner fakeKubernetes :=
  session (NewPruner fakeClient (testOwner 2) ledgerOldX withFakeScheme)
    recreatedX_steps.



(** The state of the loop variables on entry to the loop. *)
Definition loopStart (p : @Pruner fakeKubernetes) (w : @World fakeKubernetes)
    : @LoopState fakeKubernetes :=
  @mkLoopState fakeKubernetes [] [] (result p) w.

(** [Y] recreated under a new UID, for the desired-set test alone. *)
Definition ledgerOldY : list ManagedChild := [entry "y" "uid-1" 1].

Definition recreatedY_steps : list SessionStep :=
  [Mark (testDeployment "y" "uid-2")].

Definition recreatedY : @Pruner fakeKubernetes :=
  session (NewPruner fakeClient (testOwner 2) ledgerOldY withFakeScheme)
    recreatedY_steps.

(** Scenario B once pruned. *)
Definition scenarioB_pruned : @Pruner fakeKubernetes :=
  set_result {| Pruned := ["Deployment default/x"]; Skipped := [] |}
    (set_children [entry "y" "uid-y" 2] scenarioB).

Definition scenarioB_world : @World fakeKubernetes :=
  @mkWorld fakeKubernetes [("Deployment", "default", "y")]
    [EvDelete (deploymentHandle "x"); EvUpdateStatus].

(** The cluster of scenario B when X is already gone from it. *)
Definition clusterY : FakeCluster := [("Deployment", "default", "y")].

(** Scenario E once pruned, with a status update that works. *)
Definition scenarioE_pruned : @Pruner fakeKubernetes :=
  set_result {| Pruned := ["Deployment default/x"]; Skipped := [] |}
    (set_children [entry "locked" "uid-l" 1] scenarioE).

Definition scenarioE_world : @World fakeKubernetes :=
  @mkWorld fakeKubernetes [("Deployment", "default", "locked")]
    [EvDelete (deploymentHandle "locked");
     EvErrorHandler (External "Forbidden") (deploymentHandle "locked");
     EvDelete (deploymentHandle "x"); EvUpdateStatus].

(** Scenario E under the handler of the package's example, which ignores
    every error. *)
Definition ignoreErrors : ErrorHandlerFunc := fun _ _ => None.

Definition scenarioLenient : @Pruner fakeKubernetes :=
  NewPruner fakeClient (testOwner 2) ledgerLockedX
    (withFakeScheme ++ [OptErrorHandler ignoreErrors]).

(** A redundant reconcile after scenario B's marking: a new Pruner on the
    ledger and the owner that scenario B's session left. *)
Definition scenarioRedundant : @Pruner fakeKubernetes :=
  session (NewPruner fakeClient (owner scenarioB) (children scenarioB) withFakeScheme)
    [].

(* ================================================================== *)
(** * Properties *)
(* ================================================================== *)

(** ** Baseline generation *)

Lemma maxGen_step (m g : Z) :
  (if decide (g > m) then g else m) = Z.max m g.
Proof. case_decide; lia. Qed.

Lemma fold_maxGen_code (cs : list ManagedChild) (a : Z) :
  fold_left
    (fun maxGen child =>
       if decide (ObservedGeneration child > maxGen)
       then ObservedGeneration child else maxGen) cs a
  = fold_left (fun m c => Z.max m (ObservedGeneration c)) cs a.
Proof.
  revert a. induction cs as [|c cs IH]; intros a; simpl; [reflexivity|].
  rewrite maxGen_step. apply IH.
Qed.





Section Properties.
Context `{K : Kubernetes}.

(** ** MarkReconciled *)

Lemma MarkReconciled_markedRef (p : Pruner) (obj : Object) :
  MarkReconciled p obj =
    match markedRef p obj with
    | Some ref =>
        (set_children
           (upsertChild (children p) ref (GetGeneration (owner p)))
           (set_desiredRefs ({[ makeRefKey ref ]} ∪ desiredRefs p) p),
         None)
    | None =>
        (p, Some
              (if decide (GetUID obj = "")
               then Errorf "object %s/%s must have a UID (has it been created in the cluster?)" None
               else match makeObjectReference p obj with
                    | Err err => Errorf "failed to generate reference for object: %w" (Some err)
                    | Ok _ => External ""
                    end))
    end.
Proof.
  unfold MarkReconciled, markedRef.
  case_decide; [reflexivity|].
  destruct (makeObjectReference p obj); reflexivity.
Qed.

(** Whenever [MarkReconciled] returns an error, it returns the Pruner it
    was given. *)
Lemma MarkReconciled_error_unchanged (p p' : Pruner) (obj : Object) (err : error) :
  MarkReconciled p obj = (p', Some err) -> p' = p.
Proof.
  rewrite MarkReconciled_markedRef.
  destruct (markedRef p obj); congruence.
Qed.

(** C6: a resource with an empty UID, or one whose reference cannot be
    built, makes MarkReconciled return an error and leave the whole
    Pruner, desired set and ledger included, as it was. *)
Theorem C6_MarkReconciled_fails_without_mutation (p : Pruner) (obj : Object)
    (Hfail : GetUID obj = "" \/ exists e, makeObjectReference p obj = Err e) :
  exists err,
    MarkReconciled p obj = (p, Some err)
    /\ desiredRefs (fst (MarkReconciled p obj)) = desiredRefs p
    /\ children (fst (MarkReconciled p obj)) = children p.
Proof.
  unfold MarkReconciled.
  case_decide as Huid.
  - eexists; repeat split.
  - destruct Hfail as [Hfail | [e He]]; [contradiction|].
    rewrite He. eexists; repeat split.
Qed.

(** *** upsertChild *)

Lemma upsertChild_found (pre post : list ManagedChild) (old : ManagedChild)
    (ref : corev1.ObjectReference) (g : Z) :
  Forall (fun c => ObjectReference c <> ref) pre ->
  ObjectReference old = ref ->
  upsertChild (pre ++ old :: post) ref g
  = pre ++ {| ObjectReference := ref; ObservedGeneration := g |} :: post.
Proof.
  intros Hpre Hold.
  induction Hpre as [|c pre Hc _ IH]; simpl.
  - rewrite decide_True by assumption. rewrite Hold. reflexivity.
  - rewrite decide_False by assumption. rewrite IH. reflexivity.
Qed.

Lemma upsertChild_fresh (cs : list ManagedChild)
    (ref : corev1.ObjectReference) (g : Z) :
  Forall (fun c => ObjectReference c <> ref) cs ->
  upsertChild cs ref g
  = cs ++ [ {| ObjectReference := ref; ObservedGeneration := g |} ].
Proof.
  induction 1 as [|c cs Hc _ IH]; simpl; [reflexivity|].
  rewrite decide_False by assumption. rewrite IH. reflexivity.
Qed.

(** The ledger either has a first entry for [ref] or has none. *)
Lemma ledger_split (cs : list ManagedChild) (ref : corev1.ObjectReference) :
  (exists pre old post,
      cs = pre ++ old :: post
      /\ Forall (fun c => ObjectReference c <> ref) pre
      /\ ObjectReference old = ref)
  \/ Forall (fun c => ObjectReference c <> ref) cs.
Proof.
  induction cs as [|c cs IH].
  - right. constructor.
  - destruct (decide (ObjectReference c = ref)) as [Heq | Hne].
    + left. exists [], c, cs. repeat split; [constructor | assumption].
    + destruct IH as [(pre & old & post & -> & Hpre & Hold) | Hall].
      * left. exists (c :: pre), old, post.
        repeat split; [constructor; assumption | assumption].
      * right. constructor; assumption.
Qed.

Lemma upsertChild_refs (cs : list ManagedChild)
    (ref : corev1.ObjectReference) (g : Z) :
  ObjectReference <$> upsertChild cs ref g
  = if decide (ref ∈ ObjectReference <$> cs)
    then ObjectReference <$> cs
    else (ObjectReference <$> cs) ++ [ref].
Proof.
  induction cs as [|c cs IH].
  - destruct (decide (ref ∈ ObjectReference <$> [])) as [Hin | _];
      [|reflexivity].
    exfalso. revert Hin. apply not_elem_of_nil.
  - cbn [upsertChild]. rewrite fmap_cons.
    destruct (decide (ObjectReference c = ref)) as [Heq | Hne].
    + rewrite decide_True by (apply elem_of_cons; left; congruence).
      reflexivity.
    + rewrite fmap_cons, IH.
      destruct (decide (ref ∈ ObjectReference <$> cs)) as [Hin | Hnin].
      * rewrite decide_True by (apply elem_of_cons; right; assumption).
        reflexivity.
      * rewrite decide_False; [reflexivity|].
        rewrite elem_of_cons. intros [Heq | Hin]; [congruence | contradiction].
Qed.

Lemma upsertChild_elem_of (cs : list ManagedChild)
    (ref : corev1.ObjectReference) (g : Z) :
  {| ObjectReference := ref; ObservedGeneration := g |} ∈ upsertChild cs ref g.
Proof.
  induction cs as [|c cs IH]; simpl; [apply list_elem_of_singleton; reflexivity|].
  destruct (decide (ObjectReference c = ref)) as [Heq | Hne].
  - apply elem_of_cons. left. rewrite Heq. reflexivity.
  - apply elem_of_cons. right. exact IH.
Qed.

Lemma upsertChild_NoDup (cs : list ManagedChild)
    (ref : corev1.ObjectReference) (g : Z) :
  NoDup (ObjectReference <$> cs) ->
  NoDup (ObjectReference <$> upsertChild cs ref g).
Proof.
  intros Hnd. rewrite upsertChild_refs.
  case_decide as Hin; [assumption|].
  apply NoDup_app. split; [assumption|]. split.
  - intros x Hx Hx'. apply list_elem_of_singleton in Hx'. subst x. contradiction.
  - apply NoDup_singleton.
Qed.

(** C7: a successful MarkReconciled leaves in the ledger an entry for the
    marked reference at the parent's current generation; the first entry
    with that reference, if there is one, is restamped where it stands
    and nothing else changes, otherwise one entry is appended; a ledger
    free of duplicate references stays so. *)
Theorem C7_MarkReconciled_upserts_ledger (p p' : Pruner) (obj : Object)
    (Hok : MarkReconciled p obj = (p', None)) :
  exists ref,
    makeObjectReference p obj = Ok ref
    /\ corev1.Namespace ref = GetNamespace obj
    /\ corev1.Name ref = GetName obj
    /\ corev1.UID ref = GetUID obj
    /\ let entry := {| ObjectReference := ref;
                       ObservedGeneration := GetGeneration (owner p) |} in
       entry ∈ children p'
       /\ ((exists pre old post,
              children p = pre ++ old :: post
              /\ Forall (fun c => ObjectReference c <> ref) pre
              /\ ObjectReference old = ref
              /\ children p' = pre ++ entry :: post)
           \/ (Forall (fun c => ObjectReference c <> ref) (children p)
               /\ children p' = children p ++ [entry]))
       /\ (NoDup (ObjectReference <$> children p) ->
           NoDup (ObjectReference <$> children p')).
Proof.
  unfold MarkReconciled in Hok.
  case_decide as Huid; [discriminate|].
  destruct (makeObjectReference p obj) as [ref | e] eqn:Href; [|discriminate].
  injection Hok as <-. exists ref. split; [reflexivity|].
  assert (Hfields : corev1.Namespace ref = GetNamespace obj
                    /\ corev1.Name ref = GetName obj
                    /\ corev1.UID ref = GetUID obj).
  { unfold makeObjectReference in Href.
    destruct (getGVK p obj); [|discriminate].
    injection Href as <-. simpl. auto. }
  destruct Hfields as (Hns & Hname & Huid').
  repeat (split; [assumption|]). simpl.
  split; [apply upsertChild_elem_of|]. split.
  - destruct (ledger_split (children p) ref)
      as [(pre & old & post & Hcs & Hpre & Hold) | Hall].
    + left. exists pre, old, post. repeat split; try assumption.
      rewrite Hcs. apply upsertChild_found; assumption.
    + right. split; [assumption|]. apply upsertChild_fresh; assumption.
  - apply upsertChild_NoDup.
Qed.

(** ** The pruning loop *)

Lemma stale_not_kept (d : gset string) (g : Z) (e : ManagedChild) :
  stale d g e <-> ~ kept d g e.
Proof. unfold stale, kept. tauto. Qed.

Lemma deleteResource_eq (p : Pruner) (obj : Object) (w : World)
    (c : Cluster) (r : option error) :
  Delete (client p) (cluster w) obj = (c, r) ->
  deleteResource p obj w
  = ({| cluster := c; log := log w ++ [EvDelete obj] |},
     match r with
     | Some err => if IsNotFound err then None else Some err
     | None => None
     end).
Proof.
  intros Hdel. unfold deleteResource. rewrite Hdel.
  destruct r as [err|]; [destruct (IsNotFound err)|]; reflexivity.
Qed.

Lemma pruneChild_kept (p : Pruner) (d : gset string) (g : Z)
    (e : ManagedChild) (s : LoopState) :
  kept d g e -> pruneChild p d g e s = Returned (keepChild e s).
Proof.
  intros [Hd | Hf]; unfold pruneChild.
  - rewrite decide_True by exact Hd. reflexivity.
  - case_decide; [reflexivity|]. rewrite decide_True by exact Hf. reflexivity.
Qed.

Lemma pruneChild_stale (p : Pruner) (d : gset string) (g : Z)
    (e : ManagedChild) (s : LoopState) :
  stale d g e ->
  pruneChild p d g e s =
    match objectFromReference p (ObjectReference e) with
    | Panicked => Panicked
    | Returned (Err err) =>
        Returned
          (appendError
             (Errorf "failed to create object from reference %s: %w" (Some err)) s)
    | Returned (Ok obj) =>
        let refStr := formatObjectReference (ObjectReference e) in
        if dryRun p then Returned (appendSkipped refStr s)
        else
          let '(w, derr) := deleteResource p obj (loopWorld s) in
          match derr with
          | Some err =>
              let '(w, handledErr) := callErrorHandler p err obj w in
              match handledErr with
              | Some herr =>
                  Returned (keepChild e (appendError herr (setWorld w s)))
              | None => Returned (appendPruned refStr (setWorld w s))
              end
          | None => Returned (appendPruned refStr (setWorld w s))
          end
    end.
Proof.
  intros [Hd Hf]. unfold pruneChild.
  rewrite decide_False by exact Hd. rewrite decide_False by exact Hf.
  reflexivity.
Qed.

Lemma pruneLoop_app (p : Pruner) (d : gset string) (g : Z)
    (l1 l2 : list ManagedChild) (s : LoopState) :
  pruneLoop p d g (l1 ++ l2) s =
    match pruneLoop p d g l1 s with
    | Panicked => Panicked
    | Returned s' => pruneLoop p d g l2 s'
    end.
Proof.
  revert s. induction l1 as [|e l1 IH]; intros s; simpl; [reflexivity|].
  destruct (pruneChild p d g e s) as [s'|]; [apply IH | reflexivity].
Qed.

(** Every iteration that returns is one of those, and each of those is
    what the iteration returns. *)
Lemma pruneChild_iteration (p : Pruner) (d : gset string) (g : Z)
    (e : ManagedChild) (s s' : LoopState) :
  pruneChild p d g e s = Returned s' <-> iteration p d g e s s'.
Proof.
  split.
  - intros Hstep.
    destruct (decide (kept d g e)) as [Hk | Hnk].
    + rewrite pruneChild_kept in Hstep by exact Hk.
      injection Hstep as <-. constructor. exact Hk.
    + apply stale_not_kept in Hnk.
      rewrite pruneChild_stale in Hstep by exact Hnk.
      destruct (objectFromReference p (ObjectReference e))
        as [[obj | cause]|] eqn:Hobj; [| |discriminate].
      * cbv zeta in Hstep.
        destruct (dryRun p) eqn:Hdry.
        { injection Hstep as <-. eapply it_skipped; eassumption. }
        destruct (Delete (client p) (cluster (loopWorld s)) obj) as [c r] eqn:Hdel.
        rewrite (deleteResource_eq _ _ _ _ _ Hdel) in Hstep.
        destruct r as [derr|].
        -- destruct (IsNotFound derr) eqn:Hnf.
           ++ injection Hstep as <-.
              eapply it_deleted; try eassumption.
           ++ unfold callErrorHandler in Hstep. cbn in Hstep.
              destruct (errorHandler p derr obj) as [herr|] eqn:Hh;
                injection Hstep as <-; rewrite <- app_assoc.
              ** eapply it_failed; eassumption.
              ** eapply it_ignored; eassumption.
        -- injection Hstep as <-.
           eapply it_deleted; try eassumption. exact I.
      * injection Hstep as <-. eapply it_unbuildable; eassumption.
  - intros Hit.
    destruct Hit as [Hk | cause Hst Hobj | obj Hst Hobj Hdry
                    | obj c r Hst Hobj Hdry Hdel Hnf
                    | obj c derr Hst Hobj Hdry Hdel Hnf Hh
                    | obj c derr herr Hst Hobj Hdry Hdel Hnf Hh];
      [apply pruneChild_kept; assumption|..];
      rewrite pruneChild_stale by assumption; rewrite Hobj;
      [reflexivity|..]; cbv zeta; rewrite Hdry; [reflexivity|..];
      rewrite (deleteResource_eq _ _ _ _ _ Hdel).
    + destruct r as [err|]; [rewrite Hnf|]; reflexivity.
    + rewrite Hnf. unfold callErrorHandler. cbn. rewrite Hh.
      rewrite <- app_assoc. reflexivity.
    + rewrite Hnf. unfold callErrorHandler. cbn. rewrite Hh.
      rewrite <- app_assoc. reflexivity.
Qed.

Lemma grows_refl (s : LoopState) : grows s s.
Proof. split; reflexivity. Qed.

Lemma grows_trans (s1 s2 s3 : LoopState) :
  grows s1 s2 -> grows s2 s3 -> grows s1 s3.
Proof. intros [] []. split; etrans; eassumption. Qed.

Lemma iteration_grows (p : Pruner) (d : gset string) (g : Z)
    (e : ManagedChild) (s s' : LoopState) :
  iteration p d g e s s' -> grows s s'.
Proof.
  intros Hit. destruct Hit; split; simpl;
    first [ reflexivity | apply prefix_app_r; reflexivity ].
Qed.

Lemma pruneLoop_grows (p : Pruner) (d : gset string) (g : Z)
    (cs : list ManagedChild) (s s' : LoopState) :
  pruneLoop p d g cs s = Returned s' -> grows s s'.
Proof.
  revert s. induction cs as [|e cs IH]; intros s Hloop; simpl in Hloop.
  - injection Hloop as <-. apply grows_refl.
  - destruct (pruneChild p d g e s) as [s1|] eqn:Hstep; [|discriminate].
    apply pruneChild_iteration in Hstep.
    eapply grows_trans; [eapply iteration_grows; eassumption | eauto].
Qed.

(** What an iteration adds to the new ledger is the entry or nothing,
    and it is exactly the kept entry when no error was added. *)
Lemma iteration_newChildren (p : Pruner) (d : gset string) (g : Z)
    (e : ManagedChild) (s s' : LoopState) :
  iteration p d g e s s' ->
  exists ks,
    newChildren s' = newChildren s ++ ks
    /\ ks `sublist_of` [e]
    /\ (pruneErrors s' = pruneErrors s -> ks = filter (kept d g) [e]).
Proof.
  intros Hit.
  assert (Hnil : forall err : error, pruneErrors s ++ [err] <> pruneErrors s).
  { intros err Heq. apply (f_equal length) in Heq.
    rewrite length_app in Heq. simpl in Heq. lia. }
  destruct Hit as [Hk | cause Hst | obj Hst | obj c r Hst | obj c derr Hst
                  | obj c derr herr Hst]; simpl.
  - exists [e]. split; [reflexivity|]. split; [reflexivity|].
    intros _. rewrite filter_cons_True by exact Hk. reflexivity.
  - exists []. split; [symmetry; apply app_nil_r|].
    split; [apply sublist_nil_l|]. intros Heq. exfalso. eapply Hnil, Heq.
  - exists []. split; [symmetry; apply app_nil_r|].
    split; [apply sublist_nil_l|]. intros _.
    rewrite filter_cons_False by (apply stale_not_kept; exact Hst). reflexivity.
  - exists []. split; [symmetry; apply app_nil_r|].
    split; [apply sublist_nil_l|]. intros _.
    rewrite filter_cons_False by (apply stale_not_kept; exact Hst). reflexivity.
  - exists []. split; [symmetry; apply app_nil_r|].
    split; [apply sublist_nil_l|]. intros _.
    rewrite filter_cons_False by (apply stale_not_kept; exact Hst). reflexivity.
  - exists [e]. split; [reflexivity|]. split; [reflexivity|].
    intros Heq. exfalso. eapply Hnil, Heq.
Qed.

Lemma prefix_same_length {A : Type} (l1 l2 : list A) :
  l1 `prefix_of` l2 -> (length l2 <= length l1)%nat -> l1 = l2.
Proof.
  intros [k ->] Hlen. rewrite length_app in Hlen.
  destruct k as [|x k]; [symmetry; apply app_nil_r | simpl in Hlen; lia].
Qed.

Lemma pruneLoop_newChildren (p : Pruner) (d : gset string) (g : Z)
    (cs : list ManagedChild) (s s' : LoopState) :
  pruneLoop p d g cs s = Returned s' ->
  exists ks,
    newChildren s' = newChildren s ++ ks
    /\ ks `sublist_of` cs
    /\ (pruneErrors s' = pruneErrors s -> ks = filter (kept d g) cs).
Proof.
  revert s. induction cs as [|e cs IH]; intros s Hloop; simpl in Hloop.
  - injection Hloop as <-. exists []. split; [symmetry; apply app_nil_r|].
    split; [reflexivity|]. intros _. reflexivity.
  - destruct (pruneChild p d g e s) as [s1|] eqn:Hstep; [|discriminate].
    apply pruneChild_iteration in Hstep.
    destruct (iteration_newChildren _ _ _ _ _ _ Hstep) as (k1 & Hk1 & Hsub1 & Hex1).
    destruct (IH _ Hloop) as (k2 & Hk2 & Hsub2 & Hex2).
    exists (k1 ++ k2). split; [rewrite Hk2, Hk1, app_assoc; reflexivity|].
    split; [change (e :: cs) with ([e] ++ cs); apply sublist_app; assumption|].
    intros Heq.
    pose proof (grows_pruneErrors _ _ (iteration_grows _ _ _ _ _ _ Hstep)) as Hp1.
    pose proof (grows_pruneErrors _ _ (pruneLoop_grows _ _ _ _ _ _ Hloop)) as Hp2.
    assert (H1 : pruneErrors s = pruneErrors s1).
    { apply prefix_same_length; [exact Hp1|].
      rewrite <- Heq. apply prefix_length. exact Hp2. }
    rewrite Hex1 by (symmetry; exact H1).
    rewrite Hex2 by congruence.
    change (e :: cs) with ([e] ++ cs). rewrite filter_app. reflexivity.
Qed.

(** With a scheme at hand no iteration panics, so the loop returns. *)
Lemma objectFromReference_returns (p : Pruner) (ref : corev1.ObjectReference) :
  is_Some (scheme p) -> exists r, objectFromReference p ref = Returned r.
Proof.
  intros [sch Hsch]. unfold objectFromReference. rewrite Hsch.
  destruct (ParseGroupVersion (corev1.APIVersion ref)) as [gv|err]; [|eauto].
  destruct (New sch _) as [[o|]|err]; eauto.
Qed.

Lemma pruneChild_returns (p : Pruner) (d : gset string) (g : Z)
    (e : ManagedChild) (s : LoopState) :
  is_Some (scheme p) -> exists s', pruneChild p d g e s = Returned s'.
Proof.
  intros Hsch.
  destruct (decide (kept d g e)) as [Hk | Hnk].
  - rewrite pruneChild_kept by exact Hk. eauto.
  - apply stale_not_kept in Hnk. rewrite pruneChild_stale by exact Hnk.
    destruct (objectFromReference_returns p (ObjectReference e) Hsch) as [r ->].
    destruct r as [obj|err]; [|eauto]. cbv zeta.
    destruct (dryRun p); [eauto|].
    destruct (deleteResource p obj (loopWorld s)) as [w [derr|]]; [|eauto].
    destruct (callErrorHandler p derr obj w) as [w' [herr|]]; eauto.
Qed.

Lemma pruneLoop_returns (p : Pruner) (d : gset string) (g : Z)
    (cs : list ManagedChild) (s : LoopState) :
  is_Some (scheme p) -> exists s', pruneLoop p d g cs s = Returned s'.
Proof.
  intros Hsch. revert s. induction cs as [|e cs IH]; intros s; simpl; [eauto|].
  destruct (pruneChild_returns p d g e s Hsch) as [s1 ->]. apply IH.
Qed.

(** An entry whose handle can be built witnesses the scheme. *)
Lemma objectFromReference_Ok_scheme (p : Pruner) (ref : corev1.ObjectReference)
    (obj : Object) :
  objectFromReference p ref = Returned (Ok obj) -> is_Some (scheme p).
Proof.
  unfold objectFromReference.
  destruct (ParseGroupVersion (corev1.APIVersion ref)); [|discriminate].
  destruct (scheme p); [eauto | discriminate].
Qed.

(** ** Prune, by cases on the generation *)

Lemma callUpdateStatus_eq (us : UpdateStatusFunc) (p : Pruner) (w : World) :
  callUpdateStatus us p w
  = ({| cluster := fst (us (children p) (cluster w));
        log := log w ++ [EvUpdateStatus] |},
     snd (us (children p) (cluster w))).
Proof.
  unfold callUpdateStatus. destruct (us (children p) (cluster w)); reflexivity.
Qed.

(** Generation not above the baseline: only the status update runs. *)
Lemma Prune_steady (p : Pruner) (us : UpdateStatusFunc) (w : World) :
  GetGeneration (owner p) <= lastAppliedGen p ->
  Prune p us w
  = Returned (p,
      {| cluster := fst (us (children p) (cluster w));
         log := log w ++ [EvUpdateStatus] |},
      (result p, returnedError [] (snd (us (children p) (cluster w))))).
Proof.
  intros Hle. unfold Prune. rewrite decide_False by lia.
  rewrite callUpdateStatus_eq.
  destruct (snd (us (children p) (cluster w))); reflexivity.
Qed.

(** Generation above the baseline: the loop runs, its ledger and result
    replace the old ones, and then the status update runs. *)
Lemma Prune_advanced (p : Pruner) (us : UpdateStatusFunc) (w : World)
    (s : LoopState) :
  GetGeneration (owner p) > lastAppliedGen p ->
  pruneStaleResources p (children p) (desiredRefs p) (lastAppliedGen p)
    (result p) w = Returned s ->
  let p' := set_result (loopResult s) (set_children (newChildren s) p) in
  Prune p us w
  = Returned (p',
      {| cluster := fst (us (newChildren s) (cluster (loopWorld s)));
         log := log (loopWorld s) ++ [EvUpdateStatus] |},
      (loopResult s,
       returnedError (pruneErrors s)
         (snd (us (newChildren s) (cluster (loopWorld s)))))).
Proof.
  intros Hgt Hloop p'. unfold Prune. rewrite decide_True by exact Hgt.
  rewrite Hloop. fold p'. rewrite !callUpdateStatus_eq.
  change (children p') with (newChildren s).
  change (result p') with (loopResult s).
  destruct (decide (0 < length (pruneErrors s))%nat) as [Hlen | Hlen];
    destruct (pruneErrors s) as [|err errs]; simpl in Hlen |- *;
    try lia;
    destruct (snd (us (newChildren s) (cluster (loopWorld s)))); reflexivity.
Qed.

Lemma Prune_panics (p : Pruner) (us : UpdateStatusFunc) (w : World) :
  GetGeneration (owner p) > lastAppliedGen p ->
  pruneStaleResources p (children p) (desiredRefs p) (lastAppliedGen p)
    (result p) w = Panicked ->
  Prune p us w = Panicked.
Proof.
  intros Hgt Hloop. unfold Prune. rewrite decide_True by exact Hgt.
  rewrite Hloop. reflexivity.
Qed.

(** ** Sessions *)

(** What no option of the package touches. *)
Lemma applyOption_frame (opt : Option) (p : Pruner) :
  client (applyOption opt p) = client p
  /\ owner (applyOption opt p) = owner p
  /\ children (applyOption opt p) = children p
  /\ desiredRefs (applyOption opt p) = desiredRefs p
  /\ result (applyOption opt p) = result p
  /\ lastAppliedGen (applyOption opt p) = lastAppliedGen p.
Proof.
  destruct opt as [s | [|] | h]; repeat split.
Qed.

Lemma applyOptions_frame (opts : list Option) (q : Pruner) :
  let p := fold_left (fun p opt => applyOption opt p) opts q in
  client p = client q
  /\ owner p = owner q
  /\ children p = children q
  /\ desiredRefs p = desiredRefs q
  /\ result p = result q
  /\ lastAppliedGen p = lastAppliedGen q.
Proof.
  revert q. induction opts as [|opt opts IH]; intros q; simpl.
  - repeat split.
  - destruct (applyOption_frame opt q) as (<- & <- & <- & <- & <- & <-).
    apply IH.
Qed.

Lemma NewPruner_state (c : Client) (owner0 : Object) (cs : list ManagedChild)
    (opts : list Option) :
  let p := NewPruner c owner0 cs opts in
  client p = c
  /\ owner p = owner0
  /\ children p = cs
  /\ desiredRefs p = ∅
  /\ result p = {| Pruned := []; Skipped := [] |}
  /\ lastAppliedGen p = getLastAppliedGeneration cs (GetGeneration owner0).
Proof.
  unfold NewPruner. cbv zeta.
  match goal with
  | |- context [fold_left _ opts ?q] =>
      destruct (applyOptions_frame opts q) as (-> & -> & -> & -> & -> & ->)
  end.
  repeat split.
Qed.

(** What no step of a session touches. *)
Lemma sessionStep_frame (p : Pruner) (st : SessionStep) :
  client (sessionStep p st) = client p
  /\ scheme (sessionStep p st) = scheme p
  /\ dryRun (sessionStep p st) = dryRun p
  /\ errorHandler (sessionStep p st) = errorHandler p
  /\ result (sessionStep p st) = result p
  /\ lastAppliedGen (sessionStep p st) = lastAppliedGen p.
Proof.
  destruct st as [obj | g]; simpl; [|repeat split].
  rewrite MarkReconciled_markedRef.
  destruct (markedRef p obj); repeat split.
Qed.

Lemma session_frame (p : Pruner) (steps : list SessionStep) :
  client (session p steps) = client p
  /\ scheme (session p steps) = scheme p
  /\ dryRun (session p steps) = dryRun p
  /\ errorHandler (session p steps) = errorHandler p
  /\ result (session p steps) = result p
  /\ lastAppliedGen (session p steps) = lastAppliedGen p.
Proof.
  unfold session. revert p.
  induction steps as [|st steps IH]; intros p; simpl; [repeat split|].
  destruct (sessionStep_frame p st) as (<- & <- & <- & <- & <- & <-).
  apply IH.
Qed.

(** The desired set of a session holds the keys of the references it
    marked, and nothing else. *)
Lemma session_desiredRefs (p : Pruner) (steps : list SessionStep) (k : string) :
  k ∈ desiredRefs (session p steps)
  <-> k ∈ desiredRefs p
      \/ exists ref, ref ∈ markedRefs p steps /\ makeRefKey ref = k.
Proof.
  unfold session. revert p.
  induction steps as [|st steps IH]; intros p; simpl.
  - split; [auto|]. intros [Hk | (ref & Hin & _)]; [exact Hk|].
    exfalso. revert Hin. apply not_elem_of_nil.
  - rewrite IH. clear IH. destruct st as [obj | g]; simpl.
    + rewrite MarkReconciled_markedRef.
      destruct (markedRef p obj) as [ref0|]; simpl.
      * rewrite elem_of_union, elem_of_singleton.
        split.
        -- intros [[-> | Hk] | (ref & Hin & Hkey)].
           ++ right. exists ref0. split; [apply elem_of_cons; auto | reflexivity].
           ++ left. exact Hk.
           ++ right. exists ref. split; [apply elem_of_cons; auto | exact Hkey].
        -- intros [Hk | (ref & Hin & Hkey)]; [auto|].
           apply elem_of_cons in Hin as [-> | Hin]; [auto|].
           right. exists ref. auto.
      * reflexivity.
    + reflexivity.
Qed.

Lemma session_NewPruner_desiredRefs (c : Client) (owner0 : Object)
    (cs : list ManagedChild) (opts : list Option) (steps : list SessionStep)
    (k : string) :
  let p0 := NewPruner c owner0 cs opts in
  k ∈ desiredRefs (session p0 steps)
  <-> exists ref, ref ∈ markedRefs p0 steps /\ makeRefKey ref = k.
Proof.
  intros p0. rewrite session_desiredRefs.
  destruct (NewPruner_state c owner0 cs opts) as (_ & _ & _ & Hd & _).
  fold p0 in Hd. rewrite Hd.
  split; [|auto]. intros [Hk | H]; [|exact H].
  exfalso. revert Hk. apply not_elem_of_empty.
Qed.

(** ** Prune at a steady generation *)

(** C2: when the parent's generation at Prune time is not above the
    baseline captured at construction, Prune makes no Delete call (the
    log gains the status update only), hands back the Pruner as it was,
    ledger included, and returns the empty result, whatever was marked. *)
Theorem C2_Prune_steady_generation_prunes_nothing
    (c : Client) (owner0 : Object) (cs : list ManagedChild)
    (opts : list Option) (steps : list SessionStep)
    (us : UpdateStatusFunc) (w : World) :
  let p := session (NewPruner c owner0 cs opts) steps in
  GetGeneration (owner p) <= getLastAppliedGeneration cs (GetGeneration owner0) ->
  Prune p us w
  = Returned (p,
      {| cluster := fst (us (children p) (cluster w));
         log := log w ++ [EvUpdateStatus] |},
      ({| Pruned := []; Skipped := [] |},
       returnedError [] (snd (us (children p) (cluster w))))).
Proof.
  intros p Hle.
  destruct (NewPruner_state c owner0 cs opts) as (_ & _ & _ & _ & Hres & Hgen).
  destruct (session_frame (NewPruner c owner0 cs opts) steps)
    as (_ & _ & _ & _ & Hres' & Hgen').
  fold p in Hres', Hgen'.
  rewrite Prune_steady by (rewrite Hgen', Hgen; exact Hle).
  rewrite Hres', Hres. reflexivity.
Qed.

(** ** Prune at an advanced generation *)

Lemma returnedError_None (errs : list error) (ue : option error) :
  returnedError errs ue = None -> errs = [] /\ ue = None.
Proof.
  destruct errs as [|e errs], ue as [u|]; simpl; intros H;
    first [discriminate | split; reflexivity].
Qed.

(** A Prune that ran the loop and returned no error kept exactly the
    entries that the two tests at the head of the loop keep. *)
Lemma Prune_success_filter (p p' : Pruner) (us : UpdateStatusFunc)
    (w w' : World) (r : Result) :
  GetGeneration (owner p) > lastAppliedGen p ->
  Prune p us w = Returned (p', w', (r, None)) ->
  children p' = filter (kept (desiredRefs p) (lastAppliedGen p)) (children p).
Proof.
  intros Hgt Hprune.
  destruct (pruneStaleResources p (children p) (desiredRefs p)
              (lastAppliedGen p) (result p) w) as [s|] eqn:Hloop.
  - rewrite (Prune_advanced _ _ _ _ Hgt Hloop) in Hprune.
    injection Hprune as <- _ _ Herr.
    apply returnedError_None in Herr as [Herrs _].
    unfold pruneStaleResources in Hloop.
    destruct (pruneLoop_newChildren _ _ _ _ _ _ Hloop) as (ks & Hks & _ & Hex).
    simpl in Hks, Hex. simpl. rewrite Hks. apply Hex. exact Herrs.
  - rewrite (Prune_panics _ _ _ Hgt Hloop) in Hprune. discriminate.
Qed.

(** C1 (amended): after a Prune at an advanced generation that returns
    no error, the ledger holds exactly the entries it held before whose
    key (API version, kind, namespace and name; not the UID) is the key
    of a reference marked in this session, or whose observedGeneration is
    above the baseline captured at construction; their order is kept. *)
Theorem C1_survivors_by_key_or_generation
    (c : Client) (owner0 : Object) (cs : list ManagedChild)
    (opts : list Option) (steps : list SessionStep)
    (us : UpdateStatusFunc) (w w' : World) (p' : Pruner) (r : Result) :
  let p0 := NewPruner c owner0 cs opts in
  let p := session p0 steps in
  let baseline := getLastAppliedGeneration cs (GetGeneration owner0) in
  GetGeneration (owner p) > baseline ->
  Prune p us w = Returned (p', w', (r, None)) ->
  children p' = filter (kept (desiredRefs p) baseline) (children p)
  /\ forall e : ManagedChild,
       e ∈ children p'
       <-> e ∈ children p
           /\ ((exists ref,
                  ref ∈ markedRefs p0 steps
                  /\ makeRefKey ref = makeRefKey (ObjectReference e))
               \/ ObservedGeneration e > baseline).
Proof.
  intros p0 p baseline Hgt Hprune.
  destruct (NewPruner_state c owner0 cs opts) as (_ & _ & _ & _ & _ & Hgen).
  destruct (session_frame p0 steps) as (_ & _ & _ & _ & _ & Hgen').
  fold p0 in Hgen. fold p in Hgen'.
  assert (Hbase : lastAppliedGen p = baseline)
    by (unfold baseline; rewrite Hgen'; exact Hgen).
  assert (Hfilter : children p' = filter (kept (desiredRefs p) baseline) (children p)).
  { rewrite <- Hbase. eapply Prune_success_filter; [|exact Hprune].
    rewrite Hbase. exact Hgt. }
  split; [exact Hfilter|].
  intros e. rewrite Hfilter, list_elem_of_filter.
  unfold kept, keepDesired, keepFresh.
  pose proof (session_NewPruner_desiredRefs c owner0 cs opts steps
                (makeRefKey (ObjectReference e))) as Hkey.
  cbv zeta in Hkey. fold p0 in Hkey. fold p in Hkey.
  tauto.
Qed.

(** ** One stale entry in the middle of the ledger *)

Lemma pruneLoop_entry (p : Pruner) (d : gset string) (g : Z)
    (pre post : list ManagedChild) (e : ManagedChild) (s0 s1 s2 : LoopState) :
  pruneLoop p d g pre s0 = Returned s1 ->
  pruneChild p d g e s1 = Returned s2 ->
  pruneLoop p d g (pre ++ e :: post) s0 = pruneLoop p d g post s2.
Proof.
  intros Hpre Hstep. rewrite pruneLoop_app, Hpre. simpl. rewrite Hstep.
  reflexivity.
Qed.

Lemma elem_of_prefix {A : Type} (l1 l2 : list A) (x : A) :
  l1 `prefix_of` l2 -> x ∈ l1 -> x ∈ l2.
Proof. intros [k ->] Hx. apply elem_of_app. left. exact Hx. Qed.

(** Outside dry-run, the loop calls Delete for every stale entry whose
    handle can be built. *)
Lemma pruneLoop_attempts_all (p : Pruner) (d : gset string) (g : Z)
    (cs : list ManagedChild) (s s' : LoopState) :
  dryRun p = false ->
  pruneLoop p d g cs s = Returned s' ->
  forall (e : ManagedChild) (obj : Object),
    e ∈ cs -> stale d g e ->
    objectFromReference p (ObjectReference e) = Returned (Ok obj) ->
    EvDelete obj ∈ log (loopWorld s').
Proof.
  intros Hdry. revert s.
  induction cs as [|e0 cs IH]; intros s Hloop e obj Hin Hst Hobj.
  - exfalso. revert Hin. apply not_elem_of_nil.
  - simpl in Hloop.
    destruct (pruneChild p d g e0 s) as [s1|] eqn:Hstep; [|discriminate].
    apply elem_of_cons in Hin as [-> | Hin]; [|eapply IH; eassumption].
    eapply elem_of_prefix;
      [apply (grows_log _ _ (pruneLoop_grows _ _ _ _ _ _ Hloop))|].
    apply pruneChild_iteration in Hstep.
    destruct Hstep as [Hk | cause _ Hobj' | obj' _ _ Hdry'
                      | obj' c r _ Hobj' | obj' c derr _ Hobj'
                      | obj' c derr herr _ Hobj']; simpl.
    + exfalso. apply stale_not_kept in Hst. contradiction.
    + congruence.
    + congruence.
    + assert (obj' = obj) as -> by congruence.
      apply elem_of_app. right. apply list_elem_of_singleton. reflexivity.
    + assert (obj' = obj) as -> by congruence.
      apply elem_of_app. right. apply elem_of_cons. left. reflexivity.
    + assert (obj' = obj) as -> by congruence.
      apply elem_of_app. right. apply elem_of_cons. left. reflexivity.
Qed.

(** In dry-run the loop leaves the world as it found it. *)
Lemma pruneLoop_dryRun_world (p : Pruner) (d : gset string) (g : Z)
    (cs : list ManagedChild) (s s' : LoopState) :
  dryRun p = true ->
  pruneLoop p d g cs s = Returned s' ->
  loopWorld s' = loopWorld s.
Proof.
  intros Hdry. revert s. induction cs as [|e cs IH]; intros s Hloop;
    simpl in Hloop.
  - injection Hloop as <-. reflexivity.
  - destruct (pruneChild p d g e s) as [s1|] eqn:Hstep; [|discriminate].
    rewrite (IH _ Hloop).
    apply pruneChild_iteration in Hstep.
    destruct Hstep; try reflexivity; congruence.
Qed.

(** The run of Prune around an entry [e] of the ledger, once the
    iteration for [e] is known. *)
Lemma Prune_around_entry (p : Pruner) (us : UpdateStatusFunc) (w : World)
    (pre post : list ManagedChild) (e : ManagedChild) (s1 s2 : LoopState) :
  is_Some (scheme p) ->
  GetGeneration (owner p) > lastAppliedGen p ->
  children p = pre ++ e :: post ->
  pruneStaleResources p pre (desiredRefs p) (lastAppliedGen p) (result p) w
    = Returned s1 ->
  pruneChild p (desiredRefs p) (lastAppliedGen p) e s1 = Returned s2 ->
  exists sN,
    pruneLoop p (desiredRefs p) (lastAppliedGen p) post s2 = Returned sN
    /\ grows s2 sN
    /\ newChildren s1 `sublist_of` pre
    /\ (exists keptPost,
          newChildren sN = newChildren s2 ++ keptPost
          /\ keptPost `sublist_of` post)
    /\ Prune p us w
       = Returned
           (set_result (loopResult sN) (set_children (newChildren sN) p),
            {| cluster := fst (us (newChildren sN) (cluster (loopWorld sN)));
               log := log (loopWorld sN) ++ [EvUpdateStatus] |},
            (loopResult sN,
             returnedError (pruneErrors sN)
               (snd (us (newChildren sN) (cluster (loopWorld sN)))))).
Proof.
  intros Hsch Hgt Hcs Hpre Hstep.
  destruct (pruneLoop_returns p (desiredRefs p) (lastAppliedGen p) post s2 Hsch)
    as [sN HsN].
  exists sN. split; [exact HsN|].
  split; [eapply pruneLoop_grows; exact HsN|].
  split.
  { unfold pruneStaleResources in Hpre.
    destruct (pruneLoop_newChildren _ _ _ _ _ _ Hpre) as (ks & Hks & Hsub & _).
    simpl in Hks. rewrite Hks. exact Hsub. }
  split.
  { destruct (pruneLoop_newChildren _ _ _ _ _ _ HsN) as (ks & Hks & Hsub & _).
    exists ks. split; assumption. }
  apply Prune_advanced; [exact Hgt|].
  unfold pruneStaleResources in *. rewrite Hcs.
  rewrite (pruneLoop_entry _ _ _ _ _ _ _ _ _ Hpre Hstep). exact HsN.
Qed.

Lemma returnedError_cases (errs : list error) (ue : option error) :
  errs <> [] ->
  returnedError errs ue
  = Some match ue with
         | Some updateErr =>
             Errorf "failed to update status after prune errors: %w" (Some updateErr)
         | None => Join errs
         end.
Proof.
  intros Hne. destruct errs as [|e errs]; [contradiction|].
  destruct ue; reflexivity.
Qed.

Lemma elem_of_not_nil {A : Type} (l : list A) (x : A) : x ∈ l -> l <> [].
Proof. intros Hx ->. revert Hx. apply not_elem_of_nil. Qed.

Lemma Join_wraps (errs : list error) (e : error) : e ∈ errs -> wraps (Join errs) e.
Proof.
  intros Hin. eapply wraps_Join; [apply list_elem_of_In; exact Hin|].
  apply wraps_self.
Qed.


(** C8: outside dry-run, when Delete reports not-found for a stale entry
    the iteration records the entry's reference as pruned, does not
    retain the entry, adds no error and makes no call but that Delete
    (the error policy is not consulted); the reference is in the pruned
    list that Prune returns and the entry's place in the ledger is lost. *)
Theorem C8_not_found_counts_as_pruned
    (p : Pruner) (us : UpdateStatusFunc) (w : World)
    (pre post : list ManagedChild) (e : ManagedChild) (obj : Object)
    (s1 : LoopState) (c' : Cluster) (derr : error) :
  GetGeneration (owner p) > lastAppliedGen p ->
  dryRun p = false ->
  children p = pre ++ e :: post ->
  stale (desiredRefs p) (lastAppliedGen p) e ->
  objectFromReference p (ObjectReference e) = Returned (Ok obj) ->
  pruneStaleResources p pre (desiredRefs p) (lastAppliedGen p) (result p) w
    = Returned s1 ->
  Delete (client p) (cluster (loopWorld s1)) obj = (c', Some derr) ->
  IsNotFound derr = true ->
  let refStr := formatObjectReference (ObjectReference e) in
  exists s2 sN p' w' err,
    pruneChild p (desiredRefs p) (lastAppliedGen p) e s1 = Returned s2
    /\ Pruned (loopResult s2) = Pruned (loopResult s1) ++ [refStr]
    /\ Skipped (loopResult s2) = Skipped (loopResult s1)
    /\ newChildren s2 = newChildren s1
    /\ pruneErrors s2 = pruneErrors s1
    /\ log (loopWorld s2) = log (loopWorld s1) ++ [EvDelete obj]
    /\ cluster (loopWorld s2) = c'
    /\ pruneLoop p (desiredRefs p) (lastAppliedGen p) post s2 = Returned sN
    /\ Prune p us w = Returned (p', w', (loopResult sN, err))
    /\ refStr ∈ Pruned (loopResult sN)
    /\ (exists keptPost,
          children p' = newChildren s1 ++ keptPost
          /\ newChildren s1 `sublist_of` pre
          /\ keptPost `sublist_of` post).
Proof.
  intros Hgt Hdry Hcs Hst Hobj Hpre Hdel Hnf refStr.
  pose (s2 := appendPruned refStr
                (setWorld {| cluster := c';
                             log := log (loopWorld s1) ++ [EvDelete obj] |} s1)).
  assert (Hstep : pruneChild p (desiredRefs p) (lastAppliedGen p) e s1
                  = Returned s2).
  { apply pruneChild_iteration. eapply it_deleted; eassumption. }
  pose proof (objectFromReference_Ok_scheme _ _ _ Hobj) as Hsch.
  destruct (Prune_around_entry p us w pre post e s1 s2 Hsch Hgt Hcs Hpre Hstep)
    as (sN & HsN & Hgrow & Hsubpre & (ks & Hks & Hsubpost) & Hprune).
  eexists s2, sN, _, _, _.
  split; [exact Hstep|]. do 6 (split; [reflexivity|]).
  split; [exact HsN|]. split; [exact Hprune|]. split.
  - eapply elem_of_prefix; [apply (grows_Pruned _ _ Hgrow)|].
    simpl. apply elem_of_app. right. apply list_elem_of_singleton. reflexivity.
  - exists ks. simpl. auto.
Qed.

(** C4 (amended): outside dry-run, when Delete fails for a stale entry
    with an error other than not-found and the error policy returns an
    error for it, the iteration retains the entry and accumulates that
    error; the loop goes on and calls Delete for every later stale entry
    whose handle can be built; Prune returns the partial result together
    with an error, which is the join of the accumulated errors (and so
    wraps each of them) when the status update succeeds, and is the
    wrapped status-update error when that update fails. *)
Theorem C4_failed_deletion_is_retained_and_aggregated
    (p : Pruner) (us : UpdateStatusFunc) (w : World)
    (pre post : list ManagedChild) (e : ManagedChild) (obj : Object)
    (s1 : LoopState) (c' : Cluster) (derr herr : error) :
  GetGeneration (owner p) > lastAppliedGen p ->
  dryRun p = false ->
  children p = pre ++ e :: post ->
  stale (desiredRefs p) (lastAppliedGen p) e ->
  objectFromReference p (ObjectReference e) = Returned (Ok obj) ->
  pruneStaleResources p pre (desiredRefs p) (lastAppliedGen p) (result p) w
    = Returned s1 ->
  Delete (client p) (cluster (loopWorld s1)) obj = (c', Some derr) ->
  IsNotFound derr = false ->
  errorHandler p derr obj = Some herr ->
  exists s2 sN p' w' err,
    pruneChild p (desiredRefs p) (lastAppliedGen p) e s1 = Returned s2
    /\ newChildren s2 = newChildren s1 ++ [e]
    /\ pruneErrors s2 = pruneErrors s1 ++ [herr]
    /\ loopResult s2 = loopResult s1
    /\ pruneLoop p (desiredRefs p) (lastAppliedGen p) post s2 = Returned sN
    /\ Prune p us w = Returned (p', w', (loopResult sN, Some err))
    /\ children p' = newChildren sN
    /\ e ∈ children p'
    /\ herr ∈ pruneErrors sN
    /\ (forall (e2 : ManagedChild) (obj2 : Object),
          e2 ∈ post ->
          stale (desiredRefs p) (lastAppliedGen p) e2 ->
          objectFromReference p (ObjectReference e2) = Returned (Ok obj2) ->
          EvDelete obj2 ∈ log w')
    /\ match snd (us (children p') (cluster (loopWorld sN))) with
       | None =>
           err = Join (pruneErrors sN)
           /\ forall cause, cause ∈ pruneErrors sN -> wraps err cause
       | Some updateErr =>
           err = Errorf "failed to update status after prune errors: %w"
                   (Some updateErr)
       end.
Proof.
  intros Hgt Hdry Hcs Hst Hobj Hpre Hdel Hnf Hh.
  pose (s2 := keepChild e
                (appendError herr
                   (setWorld
                      {| cluster := c';
                         log := log (loopWorld s1)
                                  ++ [EvDelete obj] ++ [EvErrorHandler derr obj] |}
                      s1))).
  assert (Hstep : pruneChild p (desiredRefs p) (lastAppliedGen p) e s1
                  = Returned s2).
  { apply pruneChild_iteration. eapply it_failed; eassumption. }
  pose proof (objectFromReference_Ok_scheme _ _ _ Hobj) as Hsch.
  destruct (Prune_around_entry p us w pre post e s1 s2 Hsch Hgt Hcs Hpre Hstep)
    as (sN & HsN & Hgrow & Hsubpre & (ks & Hks & Hsubpost) & Hprune).
  assert (Hin : herr ∈ pruneErrors sN).
  { eapply elem_of_prefix; [apply (grows_pruneErrors _ _ Hgrow)|].
    simpl. apply elem_of_app. right. apply list_elem_of_singleton. reflexivity. }
  rewrite (returnedError_cases _ _ (elem_of_not_nil _ _ Hin)) in Hprune.
  eexists s2, sN, _, _, _.
  split; [exact Hstep|]. do 3 (split; [reflexivity|]).
  split; [exact HsN|]. split; [exact Hprune|].
  split; [reflexivity|]. split.
  { simpl. eapply elem_of_prefix; [apply (grows_newChildren _ _ Hgrow)|].
    simpl. apply elem_of_app. right. apply list_elem_of_singleton. reflexivity. }
  split; [exact Hin|]. split.
  { intros e2 obj2 Hin2 Hst2 Hobj2. simpl.
    apply elem_of_app. left.
    eapply pruneLoop_attempts_all; eassumption. }
  simpl. destruct (snd (us (newChildren sN) (cluster (loopWorld sN)))).
  - reflexivity.
  - split; [reflexivity|]. intros cause. apply Join_wraps.
Qed.

(** ** The key of a reference *)

Lemma append_assoc (a b c : string) : (a +:+ b) +:+ c = a +:+ (b +:+ c).
Proof.
  induction a as [|x a IH]; [reflexivity|].
  change (String x ((a +:+ b) +:+ c) = String x (a +:+ (b +:+ c))).
  f_equal. exact IH.
Qed.

Lemma slashFree_after_slash (x m : string) :
  slashFree (x +:+ String "/" m) = false.
Proof.
  induction x as [|a x IH]; [reflexivity|].
  change (negb (Ascii.eqb a "/") && slashFree (x +:+ String "/" m) = false).
  rewrite IH. apply andb_false_r.
Qed.

(** Two strings cut at their last slash are equal piece by piece. *)
Lemma last_slash_inj (x x' m m' : string) :
  slashFree m = true -> slashFree m' = true ->
  x +:+ String "/" m = x' +:+ String "/" m' ->
  x = x' /\ m = m'.
Proof.
  intros Hm Hm'. revert x'.
  induction x as [|a x IH]; intros [|a' x'] Heq; simpl in Heq.
  - injection Heq as ->. split; reflexivity.
  - injection Heq as <- ->. rewrite slashFree_after_slash in Hm. discriminate.
  - injection Heq as -> <-. rewrite slashFree_after_slash in Hm'. discriminate.
  - injection Heq as -> Heq. destruct (IH _ Heq) as [-> ->]. split; reflexivity.
Qed.

Lemma makeRefKey_fields (r1 r2 : corev1.ObjectReference) :
  corev1.APIVersion r1 = corev1.APIVersion r2 ->
  corev1.Kind r1 = corev1.Kind r2 ->
  corev1.Namespace r1 = corev1.Namespace r2 ->
  corev1.Name r1 = corev1.Name r2 ->
  makeRefKey r1 = makeRefKey r2.
Proof. unfold makeRefKey. intros -> -> -> ->. reflexivity. Qed.

Lemma makeRefKey_regroup (r : corev1.ObjectReference) :
  makeRefKey r
  = ((corev1.APIVersion r +:+ String "/" (corev1.Kind r))
       +:+ String "/" (corev1.Namespace r))
      +:+ String "/" (corev1.Name r).
Proof. unfold makeRefKey. rewrite !append_assoc. reflexivity. Qed.

Lemma makeRefKey_inj (r1 r2 : corev1.ObjectReference) :
  slashFree (corev1.Kind r1) = true -> slashFree (corev1.Kind r2) = true ->
  slashFree (corev1.Namespace r1) = true -> slashFree (corev1.Namespace r2) = true ->
  slashFree (corev1.Name r1) = true -> slashFree (corev1.Name r2) = true ->
  makeRefKey r1 = makeRefKey r2 ->
  corev1.APIVersion r1 = corev1.APIVersion r2
  /\ corev1.Kind r1 = corev1.Kind r2
  /\ corev1.Namespace r1 = corev1.Namespace r2
  /\ corev1.Name r1 = corev1.Name r2.
Proof.
  intros Hk1 Hk2 Hn1 Hn2 Hm1 Hm2 Heq.
  rewrite !makeRefKey_regroup in Heq.
  apply last_slash_inj in Heq as [Heq Hname]; [|assumption..].
  apply last_slash_inj in Heq as [Heq Hns]; [|assumption..].
  apply last_slash_inj in Heq as [Hav Hkind]; [|assumption..].
  auto.
Qed.

(** C5 (amended): an entry is classified Keep-desired exactly when the
    key of its reference is the key of a reference marked in this
    session.  The key is made of the API version, kind, namespace and
    name: references that agree on these four have the same key whatever
    their UID, and, when kinds, namespaces and names contain no slash,
    references with the same key agree on these four. *)
Theorem C5_desired_membership_is_by_key
    (c : Client) (owner0 : Object) (cs : list ManagedChild)
    (opts : list Option) (steps : list SessionStep)
    (e : ManagedChild) (s : LoopState) :
  let p0 := NewPruner c owner0 cs opts in
  let p := session p0 steps in
  (keepDesired (desiredRefs p) e
   <-> exists ref,
         ref ∈ markedRefs p0 steps
         /\ makeRefKey ref = makeRefKey (ObjectReference e))
  /\ (keepDesired (desiredRefs p) e ->
      pruneChild p (desiredRefs p) (lastAppliedGen p) e s
      = Returned (keepChild e s))
  /\ (forall r1 r2 : corev1.ObjectReference,
        corev1.APIVersion r1 = corev1.APIVersion r2 ->
        corev1.Kind r1 = corev1.Kind r2 ->
        corev1.Namespace r1 = corev1.Namespace r2 ->
        corev1.Name r1 = corev1.Name r2 ->
        makeRefKey r1 = makeRefKey r2)
  /\ (forall r1 r2 : corev1.ObjectReference,
        slashFree (corev1.Kind r1) = true -> slashFree (corev1.Kind r2) = true ->
        slashFree (corev1.Namespace r1) = true ->
        slashFree (corev1.Namespace r2) = true ->
        slashFree (corev1.Name r1) = true -> slashFree (corev1.Name r2) = true ->
        makeRefKey r1 = makeRefKey r2 ->
        corev1.APIVersion r1 = corev1.APIVersion r2
        /\ corev1.Kind r1 = corev1.Kind r2
        /\ corev1.Namespace r1 = corev1.Namespace r2
        /\ corev1.Name r1 = corev1.Name r2).
Proof.
  intros p0 p. split; [|split; [|split]].
  - apply session_NewPruner_desiredRefs.
  - intros Hd. apply pruneChild_kept. left. exact Hd.
  - apply makeRefKey_fields.
  - apply makeRefKey_inj.
Qed.

(** ** Dry-run *)

(** In dry-run the loop makes no call, records nothing as pruned, and
    its new ledger holds the kept entries only: every stale entry is
    left out, whether or not it was recorded as skipped. *)
Lemma pruneLoop_dryRun (p : Pruner) (d : gset string) (g : Z)
    (cs : list ManagedChild) (s s' : LoopState) :
  dryRun p = true ->
  pruneLoop p d g cs s = Returned s' ->
  loopWorld s' = loopWorld s
  /\ Pruned (loopResult s') = Pruned (loopResult s)
  /\ newChildren s' = newChildren s ++ filter (kept d g) cs.
Proof.
  intros Hdry. revert s. induction cs as [|e cs IH]; intros s Hloop;
    simpl in Hloop.
  - injection Hloop as <-. rewrite app_nil_r. auto.
  - destruct (pruneChild p d g e s) as [s1|] eqn:Hstep; [|discriminate].
    destruct (IH _ Hloop) as (-> & -> & ->).
    apply pruneChild_iteration in Hstep.
    destruct Hstep as [Hk | cause Hst | obj Hst | obj c r Hst ? Hdry'
                      | obj c derr Hst ? Hdry' | obj c derr herr Hst ? Hdry'];
      try congruence; simpl.
    + rewrite filter_cons_True by exact Hk. rewrite <- app_assoc. auto.
    + rewrite filter_cons_False by (apply stale_not_kept; exact Hst). auto.
    + rewrite filter_cons_False by (apply stale_not_kept; exact Hst). auto.
Qed.

(** In dry-run every stale entry whose handle can be built is recorded
    as skipped. *)
Lemma pruneLoop_dryRun_skipped (p : Pruner) (d : gset string) (g : Z)
    (cs : list ManagedChild) (s s' : LoopState) :
  dryRun p = true ->
  pruneLoop p d g cs s = Returned s' ->
  forall (e : ManagedChild) (obj : Object),
    e ∈ cs -> stale d g e ->
    objectFromReference p (ObjectReference e) = Returned (Ok obj) ->
    formatObjectReference (ObjectReference e) ∈ Skipped (loopResult s').
Proof.
  intros Hdry. revert s.
  induction cs as [|e0 cs IH]; intros s Hloop e obj Hin Hst Hobj.
  - exfalso. revert Hin. apply not_elem_of_nil.
  - simpl in Hloop.
    destruct (pruneChild p d g e0 s) as [s1|] eqn:Hstep; [|discriminate].
    apply elem_of_cons in Hin as [-> | Hin]; [|eapply IH; eassumption].
    eapply elem_of_prefix;
      [apply (grows_Skipped _ _ (pruneLoop_grows _ _ _ _ _ _ Hloop))|].
    apply pruneChild_iteration in Hstep.
    destruct Hstep as [Hk | cause _ Hobj' | obj' _ _ _
                      | obj' c r _ _ Hdry' | obj' c derr _ _ Hdry'
                      | obj' c derr herr _ _ Hdry']; try congruence; simpl.
    + exfalso. apply stale_not_kept in Hst. contradiction.
    + apply elem_of_app. right. apply list_elem_of_singleton. reflexivity.
Qed.

(** A dry-run Prune at an advanced generation, whenever it returns: no
    Delete call, nothing pruned, every stale entry with a handle
    skipped, and a ledger that holds the kept entries only. *)
Lemma Prune_dryRun (p p' : Pruner) (us : UpdateStatusFunc) (w w' : World)
    (r : Result) (err : option error) :
  dryRun p = true ->
  GetGeneration (owner p) > lastAppliedGen p ->
  Prune p us w = Returned (p', w', (r, err)) ->
  children p' = filter (kept (desiredRefs p) (lastAppliedGen p)) (children p)
  /\ log w' = log w ++ [EvUpdateStatus]
  /\ cluster w' = fst (us (children p') (cluster w))
  /\ Pruned r = Pruned (result p)
  /\ forall (e : ManagedChild) (obj : Object),
       e ∈ children p ->
       stale (desiredRefs p) (lastAppliedGen p) e ->
       objectFromReference p (ObjectReference e) = Returned (Ok obj) ->
       formatObjectReference (ObjectReference e) ∈ Skipped r.
Proof.
  intros Hdry Hgt Hprune.
  destruct (pruneStaleResources p (children p) (desiredRefs p)
              (lastAppliedGen p) (result p) w) as [s|] eqn:Hloop.
  - rewrite (Prune_advanced _ _ _ _ Hgt Hloop) in Hprune.
    injection Hprune as <- <- <- _.
    unfold pruneStaleResources in Hloop.
    destruct (pruneLoop_dryRun _ _ _ _ _ _ Hdry Hloop) as (Hw & Hpr & Hch).
    simpl in Hw, Hpr, Hch. simpl. rewrite Hw, Hch.
    repeat split; try reflexivity; [exact Hpr|].
    intros e obj Hin Hst Hobj.
    eapply pruneLoop_dryRun_skipped; eassumption.
  - rewrite (Prune_panics _ _ _ Hgt Hloop) in Hprune. discriminate.
Qed.

(* ================================================================== *)
(** * Further properties of the package *)
(* ================================================================== *)

(** ** The baseline as a bound of the ledger *)

Lemma getLastAppliedGeneration_fold (cs : list ManagedChild) (cur : Z) :
  getLastAppliedGeneration cs cur
  = fold_left (fun m c => Z.max m (ObservedGeneration c)) cs 0.
Proof.
  unfold getLastAppliedGeneration.
  destruct cs as [|c cs]; [reflexivity|].
  rewrite decide_False by (simpl; lia).
  rewrite fold_maxGen_code. case_decide; congruence.
Qed.

Lemma fold_max_ge_start (cs : list ManagedChild) (a : Z) :
  a <= fold_left (fun m c => Z.max m (ObservedGeneration c)) cs a.
Proof.
  revert a. induction cs as [|c cs IH]; intros a; simpl; [lia|].
  specialize (IH (Z.max a (ObservedGeneration c))). lia.
Qed.

Lemma fold_max_ge_entry (cs : list ManagedChild) (a : Z) (e : ManagedChild) :
  e ∈ cs ->
  ObservedGeneration e <= fold_left (fun m c => Z.max m (ObservedGeneration c)) cs a.
Proof.
  revert a. induction cs as [|c cs IH]; intros a Hin; simpl.
  - exfalso. revert Hin. apply not_elem_of_nil.
  - apply elem_of_cons in Hin as [-> | Hin]; [|apply IH; exact Hin].
    pose proof (fold_max_ge_start cs (Z.max a (ObservedGeneration c))). lia.
Qed.

Lemma fold_max_attained (cs : list ManagedChild) (a : Z) :
  fold_left (fun m c => Z.max m (ObservedGeneration c)) cs a = a
  \/ exists e, e ∈ cs
       /\ ObservedGeneration e
          = fold_left (fun m c => Z.max m (ObservedGeneration c)) cs a.
Proof.
  revert a. induction cs as [|c cs IH]; intros a; simpl; [left; reflexivity|].
  destruct (IH (Z.max a (ObservedGeneration c))) as [Heq | (e & Hin & He)].
  - rewrite Heq. destruct (Z.max_spec a (ObservedGeneration c)) as [[_ ->] | [_ ->]].
    + right. exists c. split; [apply elem_of_cons; left; reflexivity | reflexivity].
    + left. reflexivity.
  - right. exists e. split; [apply elem_of_cons; right; exact Hin | exact He].
Qed.

Lemma baseline_ge_entry (cs : list ManagedChild) (cur : Z) (e : ManagedChild) :
  e ∈ cs -> ObservedGeneration e <= getLastAppliedGeneration cs cur.
Proof. rewrite getLastAppliedGeneration_fold. apply fold_max_ge_entry. Qed.

(** X1: the baseline is never negative, is at least the observedGeneration
    of every ledger entry, and is 0 or the observedGeneration of some
    entry. *)
Theorem X1_baseline_bounds_the_ledger (cs : list ManagedChild) (cur : Z) :
  0 <= getLastAppliedGeneration cs cur
  /\ Forall (fun e => ObservedGeneration e <= getLastAppliedGeneration cs cur) cs
  /\ (getLastAppliedGeneration cs cur = 0
      \/ exists e, e ∈ cs
           /\ ObservedGeneration e = getLastAppliedGeneration cs cur).
Proof.
  split; [|split].
  - rewrite getLastAppliedGeneration_fold. apply fold_max_ge_start.
  - apply Forall_forall. intros e Hin. apply baseline_ge_entry. exact Hin.
  - rewrite getLastAppliedGeneration_fold. apply fold_max_attained.
Qed.

(** X2: the current generation is above the baseline computed from it
    and the ledger (the test that lets Prune run its pruning loop)
    exactly when it is positive and strictly above the
    observedGeneration of every ledger entry. *)
Theorem X2_generation_advanced_iff_above_ledger
    (cs : list ManagedChild) (cur : Z) :
  cur > getLastAppliedGeneration cs cur
  <-> 0 < cur /\ Forall (fun e => ObservedGeneration e < cur) cs.
Proof.
  pose proof (fold_max_ge_start cs 0) as H0.
  rewrite getLastAppliedGeneration_fold. split.
  - intros Hgt. split; [lia|].
    apply Forall_forall. intros e Hin.
    pose proof (fold_max_ge_entry cs 0 e Hin). lia.
  - intros [Hpos Hall].
    destruct (fold_max_attained cs 0) as [-> | (e & Hin & <-)]; [lia|].
    rewrite Forall_forall in Hall. specialize (Hall e Hin). lia.
Qed.

(** ** NewPruner and its options *)

Lemma applyOptions_app (opts1 opts2 : list Option) (q : Pruner) :
  fold_left (fun p opt => applyOption opt p) (opts1 ++ opts2) q
  = fold_left (fun p opt => applyOption opt p) opts2
      (fold_left (fun p opt => applyOption opt p) opts1 q).
Proof. apply fold_left_app. Qed.

Lemma applyOptions_scheme (opts : list Option) (q : Pruner) :
  Forall (fun opt => forall s, opt <> OptScheme s) opts ->
  scheme (fold_left (fun p opt => applyOption opt p) opts q) = scheme q.
Proof.
  intros Hall. revert q.
  induction Hall as [|opt opts Hopt _ IH]; intros q; simpl; [reflexivity|].
  rewrite IH. destruct opt as [s | [|] | h]; try reflexivity.
  exfalso. exact (Hopt s eq_refl).
Qed.

Lemma applyOptions_errorHandler (opts : list Option) (q : Pruner) :
  Forall (fun opt => forall h, opt <> OptErrorHandler h) opts ->
  errorHandler (fold_left (fun p opt => applyOption opt p) opts q)
  = errorHandler q.
Proof.
  intros Hall. revert q.
  induction Hall as [|opt opts Hopt _ IH]; intros q; simpl; [reflexivity|].
  rewrite IH. destruct opt as [s | [|] | h]; try reflexivity.
  exfalso. exact (Hopt h eq_refl).
Qed.

(** X3: NewPruner captures the baseline from the ledger and the owner's
    generation as they are on entry, starts with an empty desired set and
    an empty result, and no option changes any of these; options are
    applied in the order given, so a WithScheme or WithErrorHandler
    passed last is the one in force, and without options there is no
    scheme and the error handler is the default one. *)
Theorem X3_NewPruner_initial_state
    (c : Client) (owner0 : Object) (cs : list ManagedChild)
    (opts : list Option) (s : option Scheme) (h : ErrorHandlerFunc) :
  (let p := NewPruner c owner0 cs opts in
   client p = c /\ owner p = owner0 /\ children p = cs
   /\ desiredRefs p = ∅
   /\ result p = {| Pruned := []; Skipped := [] |}
   /\ lastAppliedGen p = getLastAppliedGeneration cs (GetGeneration owner0))
  /\ scheme (NewPruner c owner0 cs (opts ++ [OptScheme s])) = s
  /\ errorHandler (NewPruner c owner0 cs (opts ++ [OptErrorHandler h])) = h
  /\ scheme (NewPruner c owner0 cs []) = None
  /\ errorHandler (NewPruner c owner0 cs []) = defaultErrorHandler
  /\ dryRun (NewPruner c owner0 cs []) = false.
Proof.
  split; [apply NewPruner_state|].
  unfold NewPruner. cbv zeta. rewrite !applyOptions_app. repeat split.
Qed.

(** ** The marking phase *)

Lemma upsertChild_elem_of_inv (cs : list ManagedChild)
    (ref : corev1.ObjectReference) (g : Z) (e : ManagedChild) :
  e ∈ upsertChild cs ref g -> e ∈ cs \/ ObjectReference e = ref.
Proof.
  induction cs as [|c cs IH]; simpl.
  - intros Hin. apply list_elem_of_singleton in Hin as ->. right. reflexivity.
  - destruct (decide (ObjectReference c = ref)) as [Heq | Hne]; intros Hin;
      apply elem_of_cons in Hin as [-> | Hin].
    + right. exact Heq.
    + left. apply elem_of_cons. right. exact Hin.
    + left. apply elem_of_cons. left. reflexivity.
    + destruct (IH Hin) as [H | H]; [left; apply elem_of_cons; right; exact H
                                    | right; exact H].
Qed.

Lemma upsertChild_keeps_refs (cs : list ManagedChild)
    (ref r : corev1.ObjectReference) (g : Z) :
  r ∈ ObjectReference <$> cs -> r ∈ ObjectReference <$> upsertChild cs ref g.
Proof.
  intros Hin. rewrite upsertChild_refs.
  case_decide; [exact Hin | apply elem_of_app; left; exact Hin].
Qed.

Lemma upsertChild_has_ref (cs : list ManagedChild)
    (ref : corev1.ObjectReference) (g : Z) :
  ref ∈ ObjectReference <$> upsertChild cs ref g.
Proof.
  rewrite upsertChild_refs.
  case_decide as Hin; [exact Hin|].
  apply elem_of_app. right. apply list_elem_of_singleton. reflexivity.
Qed.

Lemma upsertChild_length (cs : list ManagedChild)
    (ref : corev1.ObjectReference) (g : Z) :
  (length cs <= length (upsertChild cs ref g))%nat.
Proof.
  induction cs as [|c cs IH]; simpl; [lia|].
  case_decide; simpl; lia.
Qed.

Lemma upsertChild_idemp (cs : list ManagedChild)
    (ref : corev1.ObjectReference) (g : Z) :
  upsertChild (upsertChild cs ref g) ref g = upsertChild cs ref g.
Proof.
  induction cs as [|c cs IH]; simpl.
  - rewrite decide_True by reflexivity. reflexivity.
  - destruct (decide (ObjectReference c = ref)) as [Heq | Hne]; simpl.
    + rewrite decide_True by exact Heq. reflexivity.
    + rewrite decide_False by exact Hne. rewrite IH. reflexivity.
Qed.

Lemma sessionStep_desiredRefs_mono (p : Pruner) (st : SessionStep) (k : string) :
  k ∈ desiredRefs p -> k ∈ desiredRefs (sessionStep p st).
Proof.
  intros Hk. destruct st as [obj | g]; simpl; [|exact Hk].
  rewrite MarkReconciled_markedRef.
  destruct (markedRef p obj); simpl; [|exact Hk].
  apply elem_of_union. right. exact Hk.
Qed.

Lemma session_desiredRefs_mono (p : Pruner) (steps : list SessionStep) (k : string) :
  k ∈ desiredRefs p -> k ∈ desiredRefs (session p steps).
Proof. intros Hk. apply session_desiredRefs. left. exact Hk. Qed.

(** An entry of the ledger after some steps was in the ledger before
    them, untouched, or has its key in the desired set. *)
Lemma session_children_origin (p : Pruner) (steps : list SessionStep)
    (e : ManagedChild) :
  e ∈ children (session p steps) ->
  e ∈ children p \/ keepDesired (desiredRefs (session p steps)) e.
Proof.
  unfold session, keepDesired. revert p.
  induction steps as [|st steps IH]; intros p Hin; [left; exact Hin|].
  cbn [fold_left] in Hin |- *.
  destruct (IH _ Hin) as [Hin' | Hd]; [|right; exact Hd]. clear IH Hin.
  destruct st as [obj | g]; cbn [sessionStep] in Hin' |- *;
    [|left; exact Hin'].
  pose proof (session_desiredRefs_mono (fst (MarkReconciled p obj)) steps
                (makeRefKey (ObjectReference e))) as Hmono.
  unfold session in Hmono.
  rewrite MarkReconciled_markedRef in Hin', Hmono.
  destruct (markedRef p obj) as [ref|] eqn:Href; cbn [fst] in Hin', Hmono;
    [|left; exact Hin'].
  apply upsertChild_elem_of_inv in Hin' as [Hin' | Heq]; [left; exact Hin'|].
  right. rewrite MarkReconciled_markedRef, Href. cbn [fst].
  apply Hmono. simpl.
  apply elem_of_union. left. apply elem_of_singleton. rewrite Heq. reflexivity.
Qed.

Lemma sessionStep_keeps_refs (p : Pruner) (st : SessionStep)
    (r : corev1.ObjectReference) :
  r ∈ ObjectReference <$> children p ->
  r ∈ ObjectReference <$> children (sessionStep p st).
Proof.
  intros Hin. destruct st as [obj | g]; simpl; [|exact Hin].
  rewrite MarkReconciled_markedRef.
  destruct (markedRef p obj); simpl; [|exact Hin].
  apply upsertChild_keeps_refs. exact Hin.
Qed.

Lemma session_keeps_refs (p : Pruner) (steps : list SessionStep)
    (r : corev1.ObjectReference) :
  r ∈ ObjectReference <$> children p ->
  r ∈ ObjectReference <$> children (session p steps).
Proof.
  unfold session. revert p.
  induction steps as [|st steps IH]; intros p Hin; simpl; [exact Hin|].
  apply IH. apply sessionStep_keeps_refs. exact Hin.
Qed.

Lemma session_marked_in_ledger (p : Pruner) (steps : list SessionStep)
    (r : corev1.ObjectReference) :
  r ∈ markedRefs p steps ->
  r ∈ ObjectReference <$> children (session p steps).
Proof.
  unfold session. revert p.
  induction steps as [|st steps IH]; intros p Hin; simpl in *.
  - exfalso. revert Hin. apply not_elem_of_nil.
  - apply elem_of_app in Hin as [Hin | Hin]; [|apply IH; exact Hin].
    apply (session_keeps_refs _ steps).
    destruct st as [obj | g]; [|exfalso; revert Hin; apply not_elem_of_nil].
    simpl. rewrite MarkReconciled_markedRef.
    destruct (markedRef p obj) as [ref|];
      [|exfalso; revert Hin; apply not_elem_of_nil].
    apply list_elem_of_singleton in Hin as ->. simpl.
    apply upsertChild_has_ref.
Qed.

Lemma session_length (p : Pruner) (steps : list SessionStep) :
  (length (children p) <= length (children (session p steps)))%nat.
Proof.
  unfold session. revert p.
  induction steps as [|st steps IH]; intros p; simpl; [lia|].
  etrans; [|apply IH].
  destruct st as [obj | g]; simpl; [|lia].
  rewrite MarkReconciled_markedRef.
  destruct (markedRef p obj); simpl; [apply upsertChild_length | lia].
Qed.

(** X4: the marking phase of a session never drops a reference from the
    ledger and never shortens it, and every reference that a successful
    MarkReconciled marked is in the ledger when the phase ends. *)
Theorem X4_marking_keeps_and_records_references
    (p : Pruner) (steps : list SessionStep) :
  (forall r, r ∈ ObjectReference <$> children p ->
             r ∈ ObjectReference <$> children (session p steps))
  /\ (forall r, r ∈ markedRefs p steps ->
                r ∈ ObjectReference <$> children (session p steps))
  /\ (length (children p) <= length (children (session p steps)))%nat.
Proof.
  split; [|split].
  - intros r. apply session_keeps_refs.
  - intros r. apply session_marked_in_ledger.
  - apply session_length.
Qed.

(** X5: in a session started by NewPruner, a ledger entry whose
    observedGeneration is above the baseline has its key in the desired
    set: the Keep-fresh test of the pruning loop keeps nothing that the
    Keep-desired test would not keep. *)
Theorem X5_fresh_entries_are_desired
    (c : Client) (owner0 : Object) (cs : list ManagedChild)
    (opts : list Option) (steps : list SessionStep) (e : ManagedChild) :
  let p := session (NewPruner c owner0 cs opts) steps in
  e ∈ children p ->
  keepFresh (lastAppliedGen p) e ->
  keepDesired (desiredRefs p) e.
Proof.
  intros p Hin Hfresh.
  destruct (session_children_origin _ _ _ Hin) as [Hin0 | Hd]; [|exact Hd].
  exfalso.
  destruct (NewPruner_state c owner0 cs opts) as (_ & _ & Hcs & _ & _ & Hgen).
  destruct (session_frame (NewPruner c owner0 cs opts) steps)
    as (_ & _ & _ & _ & _ & Hgen').
  fold p in Hgen'. unfold keepFresh in Hfresh.
  rewrite Hgen', Hgen in Hfresh. rewrite Hcs in Hin0.
  pose proof (baseline_ge_entry cs (GetGeneration owner0) e Hin0). lia.
Qed.

(** X6: marking the same resource twice in a row is the same as marking
    it once: the second MarkReconciled succeeds and leaves the Pruner as
    the first one left it. *)
Theorem X6_MarkReconciled_twice (p p1 : Pruner) (obj : Object) :
  MarkReconciled p obj = (p1, None) ->
  MarkReconciled p1 obj = (p1, None).
Proof.
  rewrite !MarkReconciled_markedRef.
  destruct (markedRef p obj) as [ref|] eqn:Href; [|discriminate].
  intros Heq. injection Heq as <-.
  assert (Href' : markedRef
                    (set_children
                       (upsertChild (children p) ref (GetGeneration (owner p)))
                       (set_desiredRefs ({[makeRefKey ref]} ∪ desiredRefs p) p))
                    obj = Some ref) by exact Href.
  rewrite Href'. simpl. rewrite upsertChild_idemp.
  unfold set_children, set_desiredRefs. simpl.
  do 2 f_equal. apply set_eq. intros k. rewrite !elem_of_union. tauto.
Qed.

(** ** Prune, whatever it returns *)

(** The two ways in which Prune returns. *)
Lemma Prune_inv (p p' : Pruner) (us : UpdateStatusFunc) (w w' : World)
    (r : Result) (err : option error) :
  Prune p us w = Returned (p', w', (r, err)) ->
  (GetGeneration (owner p) <= lastAppliedGen p
   /\ p' = p /\ r = result p
   /\ log w' = log w ++ [EvUpdateStatus]
   /\ err = returnedError [] (snd (us (children p) (cluster w))))
  \/ (GetGeneration (owner p) > lastAppliedGen p
      /\ exists s,
           pruneLoop p (desiredRefs p) (lastAppliedGen p) (children p)
             {| newChildren := []; pruneErrors := [];
                loopResult := result p; loopWorld := w |} = Returned s
           /\ p' = set_result (loopResult s) (set_children (newChildren s) p)
           /\ r = loopResult s
           /\ log w' = log (loopWorld s) ++ [EvUpdateStatus]
           /\ err = returnedError (pruneErrors s)
                      (snd (us (newChildren s) (cluster (loopWorld s))))).
Proof.
  intros Hprune.
  destruct (decide (GetGeneration (owner p) > lastAppliedGen p)) as [Hgt | Hle].
  - right. split; [exact Hgt|].
    destruct (pruneStaleResources p (children p) (desiredRefs p)
                (lastAppliedGen p) (result p) w) as [s|] eqn:Hloop.
    + rewrite (Prune_advanced _ _ _ _ Hgt Hloop) in Hprune.
      injection Hprune as <- <- <- <-. exists s. repeat split. exact Hloop.
    + rewrite (Prune_panics _ _ _ Hgt Hloop) in Hprune. discriminate.
  - left. assert (Hle' : GetGeneration (owner p) <= lastAppliedGen p) by lia.
    rewrite (Prune_steady _ _ _ Hle') in Hprune.
    injection Hprune as <- <- <- <-. repeat split. exact Hle'.
Qed.

Lemma Pruner_eta (p : Pruner) :
  set_result (result p) (set_children (children p) p) = p.
Proof. destruct p. reflexivity. Qed.

(** When every entry passes one of the two tests at the head of the loop,
    the loop hands the ledger back and touches nothing else. *)
Lemma pruneLoop_all_kept (p : Pruner) (d : gset string) (g : Z)
    (cs : list ManagedChild) (s : LoopState) :
  Forall (kept d g) cs ->
  pruneLoop p d g cs s
  = Returned (mkLoopState (newChildren s ++ cs) (pruneErrors s)
                (loopResult s) (loopWorld s)).
Proof.
  intros Hall. revert s.
  induction Hall as [|e cs He _ IH]; intros s; simpl.
  - rewrite app_nil_r. destruct s. reflexivity.
  - rewrite (pruneChild_kept _ _ _ _ _ He). rewrite IH. simpl.
    rewrite <- app_assoc. reflexivity.
Qed.

Lemma Prune_all_kept (p : Pruner) (us : UpdateStatusFunc) (w : World) :
  Forall (kept (desiredRefs p) (lastAppliedGen p)) (children p) ->
  Prune p us w
  = Returned (p,
      {| cluster := fst (us (children p) (cluster w));
         log := log w ++ [EvUpdateStatus] |},
      (result p, returnedError [] (snd (us (children p) (cluster w))))).
Proof.
  intros Hall.
  destruct (decide (GetGeneration (owner p) > lastAppliedGen p)) as [Hgt | Hle].
  - assert (Hloop : pruneStaleResources p (children p) (desiredRefs p)
                      (lastAppliedGen p) (result p) w
                    = Returned (mkLoopState (children p) [] (result p) w)).
    { unfold pruneStaleResources. rewrite (pruneLoop_all_kept _ _ _ _ _ Hall).
      reflexivity. }
    rewrite (Prune_advanced _ _ _ _ Hgt Hloop). simpl.
    rewrite Pruner_eta. reflexivity.
  - apply Prune_steady. lia.
Qed.

(** X7: a session that NewPruner starts on an empty ledger (a first
    reconcile) never prunes, whatever the generation and whatever is
    marked: Prune makes no Delete call, returns the empty result and
    hands back the Pruner, with the ledger of the marked resources, as it
    was. *)
Theorem X7_first_reconcile_prunes_nothing
    (c : Client) (owner0 : Object) (opts : list Option)
    (steps : list SessionStep) (us : UpdateStatusFunc) (w : World) :
  let p := session (NewPruner c owner0 [] opts) steps in
  Prune p us w
  = Returned (p,
      {| cluster := fst (us (children p) (cluster w));
         log := log w ++ [EvUpdateStatus] |},
      ({| Pruned := []; Skipped := [] |},
       returnedError [] (snd (us (children p) (cluster w))))).
Proof.
  intros p.
  destruct (NewPruner_state c owner0 [] opts) as (_ & _ & Hcs & _ & Hres & _).
  destruct (session_frame (NewPruner c owner0 [] opts) steps)
    as (_ & _ & _ & _ & Hres' & _).
  fold p in Hres'.
  rewrite Prune_all_kept.
  - rewrite Hres', Hres. reflexivity.
  - apply Forall_forall. intros e Hin.
    destruct (session_children_origin _ _ _ Hin) as [Hin0 | Hd].
    + rewrite Hcs in Hin0. exfalso. revert Hin0. apply not_elem_of_nil.
    + left. exact Hd.
Qed.

(** X8: once a MarkReconciled has succeeded, a new session built on the
    resulting ledger prunes nothing as long as the owner's generation at
    Prune time is not above the one it had at that mark, whatever the
    new session marks or leaves unmarked: no Delete call, the ledger as
    the marking left it, the empty result. *)
Theorem X8_redundant_reconcile_prunes_nothing
    (p1 p2 : Pruner) (obj : Object)
    (c : Client) (opts : list Option) (steps : list SessionStep)
    (us : UpdateStatusFunc) (w : World) :
  MarkReconciled p1 obj = (p2, None) ->
  let q := session (NewPruner c (owner p2) (children p2) opts) steps in
  GetGeneration (owner q) <= GetGeneration (owner p1) ->
  Prune q us w
  = Returned (q,
      {| cluster := fst (us (children q) (cluster w));
         log := log w ++ [EvUpdateStatus] |},
      ({| Pruned := []; Skipped := [] |},
       returnedError [] (snd (us (children q) (cluster w))))).
Proof.
  intros Hmark q Hle.
  rewrite MarkReconciled_markedRef in Hmark.
  destruct (markedRef p1 obj) as [ref|]; [|discriminate].
  injection Hmark as <-. simpl in q.
  destruct (NewPruner_state c (owner p1)
              (upsertChild (children p1) ref (GetGeneration (owner p1))) opts)
    as (_ & _ & _ & _ & Hres & Hgen).
  destruct (session_frame
              (NewPruner c (owner p1)
                 (upsertChild (children p1) ref (GetGeneration (owner p1))) opts)
              steps) as (_ & _ & _ & _ & Hres' & Hgen').
  fold q in Hres', Hgen'.
  pose proof (baseline_ge_entry _ (GetGeneration (owner p1)) _
                (upsertChild_elem_of (children p1) ref (GetGeneration (owner p1))))
    as Hbound.
  simpl in Hbound.
  rewrite Prune_steady by (rewrite Hgen', Hgen; lia).
  rewrite Hres', Hres. reflexivity.
Qed.

(** X9: a Prune that returned no error can be repeated on the Pruner it
    left: the second call makes no Delete call, changes neither the
    ledger nor the result, and fails only if the status update fails. *)
Theorem X9_Prune_again_after_success
    (p p' : Pruner) (us us2 : UpdateStatusFunc) (w w' w2 : World) (r : Result) :
  Prune p us w = Returned (p', w', (r, None)) ->
  Prune p' us2 w2
  = Returned (p',
      {| cluster := fst (us2 (children p') (cluster w2));
         log := log w2 ++ [EvUpdateStatus] |},
      (r, returnedError [] (snd (us2 (children p') (cluster w2))))).
Proof.
  intros Hprune.
  destruct (Prune_inv _ _ _ _ _ _ _ Hprune)
    as [(Hle & -> & -> & _) | (Hgt & s & Hloop & -> & -> & _ & Herr)].
  - apply Prune_steady. exact Hle.
  - symmetry in Herr. apply returnedError_None in Herr as [Herrs _].
    destruct (pruneLoop_newChildren _ _ _ _ _ _ Hloop) as (ks & Hks & _ & Hex).
    simpl in Hks, Hex. specialize (Hex Herrs).
    rewrite Prune_all_kept; [reflexivity|].
    simpl. rewrite Hks, Hex.
    apply Forall_forall. intros e Hin.
    apply list_elem_of_filter in Hin as [Hk _]. exact Hk.
Qed.

(** X10: whenever Prune returns, the ledger it leaves is a sublist of the
    ledger it found: entries are only ever removed, never added, changed
    or reordered; so a ledger without duplicate references stays
    without. *)
Theorem X10_Prune_leaves_a_sublist
    (p p' : Pruner) (us : UpdateStatusFunc) (w w' : World)
    (r : Result) (err : option error) :
  Prune p us w = Returned (p', w', (r, err)) ->
  children p' `sublist_of` children p
  /\ (NoDup (ObjectReference <$> children p) ->
      NoDup (ObjectReference <$> children p')).
Proof.
  intros Hprune.
  assert (Hsub : children p' `sublist_of` children p).
  { destruct (Prune_inv _ _ _ _ _ _ _ Hprune)
      as [(_ & -> & _) | (_ & s & Hloop & -> & _)]; [reflexivity|].
    destruct (pruneLoop_newChildren _ _ _ _ _ _ Hloop) as (ks & Hks & Hsub & _).
    simpl in Hks |- *. rewrite Hks. exact Hsub. }
  split; [exact Hsub|].
  intros Hnd. eapply sublist_NoDup; [exact Hnd|].
  apply fmap_sublist. exact Hsub.
Qed.

(** The loop retains every entry that passes one of its two tests. *)
Lemma pruneLoop_keeps_kept (p : Pruner) (d : gset string) (g : Z)
    (cs : list ManagedChild) (s s' : LoopState) :
  pruneLoop p d g cs s = Returned s' ->
  forall e, e ∈ cs -> kept d g e -> e ∈ newChildren s'.
Proof.
  revert s. induction cs as [|e0 cs IH]; intros s Hloop e Hin Hk.
  - exfalso. revert Hin. apply not_elem_of_nil.
  - simpl in Hloop.
    destruct (pruneChild p d g e0 s) as [s1|] eqn:Hstep; [|discriminate].
    apply elem_of_cons in Hin as [-> | Hin]; [|eapply IH; eassumption].
    rewrite (pruneChild_kept _ _ _ _ _ Hk) in Hstep. injection Hstep as <-.
    eapply elem_of_prefix;
      [apply (grows_newChildren _ _ (pruneLoop_grows _ _ _ _ _ _ Hloop))|].
    simpl. apply elem_of_app. right. apply list_elem_of_singleton. reflexivity.
Qed.

(** X11: whenever Prune returns, with or without an error, every
    reference that a successful MarkReconciled marked during the session
    is still in the ledger. *)
Theorem X11_marked_references_survive_Prune
    (c : Client) (owner0 : Object) (cs : list ManagedChild)
    (opts : list Option) (steps : list SessionStep)
    (us : UpdateStatusFunc) (w w' : World) (p' : Pruner)
    (r : Result) (err : option error) :
  let p0 := NewPruner c owner0 cs opts in
  Prune (session p0 steps) us w = Returned (p', w', (r, err)) ->
  forall ref, ref ∈ markedRefs p0 steps ->
              ref ∈ ObjectReference <$> children p'.
Proof.
  intros p0 Hprune ref Hmarked.
  pose proof (session_marked_in_ledger _ _ _ Hmarked) as Hin.
  destruct (Prune_inv _ _ _ _ _ _ _ Hprune)
    as [(_ & -> & _) | (_ & s & Hloop & -> & _)]; [exact Hin|].
  apply list_elem_of_fmap in Hin as (e & -> & He).
  apply list_elem_of_fmap. exists e. split; [reflexivity|]. simpl.
  eapply pruneLoop_keeps_kept; [exact Hloop | exact He|].
  left. unfold keepDesired. apply session_desiredRefs. right.
  exists (ObjectReference e). split; [exact Hmarked | reflexivity].
Qed.

(** ** Where the calls and the reports of the loop come from *)

(** What one iteration adds to the log and to the result comes from the
    entry it handles, which is then stale and has a handle. *)
Lemma iteration_provenance (p : Pruner) (d : gset string) (g : Z)
    (e : ManagedChild) (s s' : LoopState) :
  iteration p d g e s s' ->
  (forall ev, ev ∈ log (loopWorld s') ->
     ev ∈ log (loopWorld s)
     \/ exists obj,
          staleHandle p d g e obj /\ dryRun p = false
          /\ EvDelete obj ∈ log (loopWorld s')
          /\ (ev = EvDelete obj
              \/ exists err, ev = EvErrorHandler err obj /\ IsNotFound err = false))
  /\ (forall x, x ∈ Pruned (loopResult s') ->
        x ∈ Pruned (loopResult s)
        \/ exists obj,
             staleHandle p d g e obj /\ dryRun p = false
             /\ x = formatObjectReference (ObjectReference e))
  /\ (forall x, x ∈ Skipped (loopResult s') ->
        x ∈ Skipped (loopResult s)
        \/ exists obj,
             staleHandle p d g e obj /\ dryRun p = true
             /\ x = formatObjectReference (ObjectReference e)).
Proof.
  intros Hit.
  destruct Hit as [Hk | cause Hst Hobj | obj Hst Hobj Hdry
                  | obj c r Hst Hobj Hdry Hdel Hnf
                  | obj c derr Hst Hobj Hdry Hdel Hnf Hh
                  | obj c derr herr Hst Hobj Hdry Hdel Hnf Hh]; simpl;
    try (assert (Hsh : staleHandle p d g e obj) by (split; assumption));
    (split; [|split]); intros x Hx; try (left; exact Hx).
  - (* skipped: the skipped list *)
    apply elem_of_app in Hx as [Hx | Hx]; [left; exact Hx|].
    apply list_elem_of_singleton in Hx as ->.
    right. exists obj. auto.
  - (* deleted: the log *)
    apply elem_of_app in Hx as [Hx | Hx]; [left; exact Hx|].
    apply list_elem_of_singleton in Hx as ->.
    right. exists obj. split; [exact Hsh|]. split; [exact Hdry|].
    split; [|left; reflexivity].
    apply elem_of_app. right. apply list_elem_of_singleton. reflexivity.
  - (* deleted: the pruned list *)
    apply elem_of_app in Hx as [Hx | Hx]; [left; exact Hx|].
    apply list_elem_of_singleton in Hx as ->.
    right. exists obj. auto.
  - (* ignored: the log *)
    apply elem_of_app in Hx as [Hx | Hx]; [left; exact Hx|].
    right. exists obj. split; [exact Hsh|]. split; [exact Hdry|]. split.
    { apply elem_of_app. right. apply elem_of_cons. left. reflexivity. }
    apply elem_of_cons in Hx as [-> | Hx]; [left; reflexivity|].
    apply list_elem_of_singleton in Hx as ->.
    right. exists derr. split; [reflexivity | exact Hnf].
  - (* ignored: the pruned list *)
    apply elem_of_app in Hx as [Hx | Hx]; [left; exact Hx|].
    apply list_elem_of_singleton in Hx as ->.
    right. exists obj. auto.
  - (* failed: the log *)
    apply elem_of_app in Hx as [Hx | Hx]; [left; exact Hx|].
    right. exists obj. split; [exact Hsh|]. split; [exact Hdry|]. split.
    { apply elem_of_app. right. apply elem_of_cons. left. reflexivity. }
    apply elem_of_cons in Hx as [-> | Hx]; [left; reflexivity|].
    apply list_elem_of_singleton in Hx as ->.
    right. exists derr. split; [reflexivity | exact Hnf].
Qed.

Lemma pruneLoop_provenance (p : Pruner) (d : gset string) (g : Z)
    (cs : list ManagedChild) (s s' : LoopState) :
  pruneLoop p d g cs s = Returned s' ->
  (forall ev, ev ∈ log (loopWorld s') ->
     ev ∈ log (loopWorld s)
     \/ exists e obj,
          e ∈ cs /\ staleHandle p d g e obj /\ dryRun p = false
          /\ EvDelete obj ∈ log (loopWorld s')
          /\ (ev = EvDelete obj
              \/ exists err, ev = EvErrorHandler err obj /\ IsNotFound err = false))
  /\ (forall x, x ∈ Pruned (loopResult s') ->
        x ∈ Pruned (loopResult s)
        \/ exists e obj,
             e ∈ cs /\ staleHandle p d g e obj /\ dryRun p = false
             /\ x = formatObjectReference (ObjectReference e))
  /\ (forall x, x ∈ Skipped (loopResult s') ->
        x ∈ Skipped (loopResult s)
        \/ exists e obj,
             e ∈ cs /\ staleHandle p d g e obj /\ dryRun p = true
             /\ x = formatObjectReference (ObjectReference e)).
Proof.
  revert s. induction cs as [|e0 cs IH]; intros s Hloop; simpl in Hloop.
  - injection Hloop as <-. repeat split; intros x Hx; left; exact Hx.
  - destruct (pruneChild p d g e0 s) as [s1|] eqn:Hstep; [|discriminate].
    apply pruneChild_iteration in Hstep.
    destruct (iteration_provenance _ _ _ _ _ _ Hstep) as (Hev1 & Hpr1 & Hsk1).
    destruct (IH _ Hloop) as (Hev2 & Hpr2 & Hsk2).
    pose proof (grows_log _ _ (pruneLoop_grows _ _ _ _ _ _ Hloop)) as Hlog.
    split; [|split]; intros x Hx.
    + destruct (Hev2 x Hx) as [Hx1 | (e & obj & Hin & Hrest)].
      * destruct (Hev1 x Hx1) as [Hx0 | (obj & Hsh & Hdry & Hdel & Hcase)];
          [left; exact Hx0|].
        right. exists e0, obj. split; [apply elem_of_cons; left; reflexivity|].
        split; [exact Hsh|]. split; [exact Hdry|]. split; [|exact Hcase].
        eapply elem_of_prefix; eassumption.
      * right. exists e, obj. split; [apply elem_of_cons; right; exact Hin|].
        exact Hrest.
    + destruct (Hpr2 x Hx) as [Hx1 | (e & obj & Hin & Hrest)].
      * destruct (Hpr1 x Hx1) as [Hx0 | (obj & Hrest)]; [left; exact Hx0|].
        right. exists e0, obj. split; [apply elem_of_cons; left; reflexivity|].
        exact Hrest.
      * right. exists e, obj. split; [apply elem_of_cons; right; exact Hin|].
        exact Hrest.
    + destruct (Hsk2 x Hx) as [Hx1 | (e & obj & Hin & Hrest)].
      * destruct (Hsk1 x Hx1) as [Hx0 | (obj & Hrest)]; [left; exact Hx0|].
        right. exists e0, obj. split; [apply elem_of_cons; left; reflexivity|].
        exact Hrest.
      * right. exists e, obj. split; [apply elem_of_cons; right; exact Hin|].
        exact Hrest.
Qed.

(** X12: Prune only ever calls Delete on the handle built for a stale
    entry of the ledger, and only outside dry-run with the generation
    above the baseline: an entry that is desired or fresh is never the
    one whose handle is deleted. *)
Theorem X12_Delete_only_for_stale_entries
    (p p' : Pruner) (us : UpdateStatusFunc) (w w' : World)
    (r : Result) (err : option error) (obj : Object) :
  Prune p us w = Returned (p', w', (r, err)) ->
  EvDelete obj ∈ log w' ->
  EvDelete obj ∈ log w
  \/ (GetGeneration (owner p) > lastAppliedGen p
      /\ dryRun p = false
      /\ exists e, e ∈ children p
           /\ staleHandle p (desiredRefs p) (lastAppliedGen p) e obj).
Proof.
  intros Hprune Hin.
  destruct (Prune_inv _ _ _ _ _ _ _ Hprune)
    as [(_ & _ & _ & Hlog & _) | (Hgt & s & Hloop & _ & _ & Hlog & _)];
    rewrite Hlog in Hin; apply elem_of_app in Hin as [Hin | Hin];
    try (apply list_elem_of_singleton in Hin; discriminate);
    [left; exact Hin|].
  destruct (pruneLoop_provenance _ _ _ _ _ _ Hloop) as (Hev & _ & _).
  destruct (Hev _ Hin) as [Hin0 | (e & obj' & He & Hsh & Hdry & _ & Hcase)];
    [left; exact Hin0|].
  right. split; [exact Hgt|]. split; [exact Hdry|].
  exists e. split; [exact He|].
  destruct Hcase as [Heq | (err' & Heq & _)]; [|discriminate].
  injection Heq as ->. exact Hsh.
Qed.

(** X13: the error handler is consulted only about an error that is not
    a not-found error, and only for a handle, built for a stale entry of
    the ledger, on which Delete was called. *)
Theorem X13_errorHandler_only_after_failed_Delete
    (p p' : Pruner) (us : UpdateStatusFunc) (w w' : World)
    (r : Result) (err : option error) (derr : error) (obj : Object) :
  Prune p us w = Returned (p', w', (r, err)) ->
  EvErrorHandler derr obj ∈ log w' ->
  EvErrorHandler derr obj ∈ log w
  \/ (IsNotFound derr = false
      /\ EvDelete obj ∈ log w'
      /\ dryRun p = false
      /\ exists e, e ∈ children p
           /\ staleHandle p (desiredRefs p) (lastAppliedGen p) e obj).
Proof.
  intros Hprune Hin.
  destruct (Prune_inv _ _ _ _ _ _ _ Hprune)
    as [(_ & _ & _ & Hlog & _) | (Hgt & s & Hloop & _ & _ & Hlog & _)];
    rewrite Hlog in Hin |- *; apply elem_of_app in Hin as [Hin | Hin];
    try (apply list_elem_of_singleton in Hin; discriminate);
    [left; exact Hin|].
  destruct (pruneLoop_provenance _ _ _ _ _ _ Hloop) as (Hev & _ & _).
  destruct (Hev _ Hin) as [Hin0 | (e & obj' & He & Hsh & Hdry & Hdel & Hcase)];
    [left; exact Hin0|].
  right.
  destruct Hcase as [Heq | (err' & Heq & Hnf)]; [discriminate|].
  injection Heq as -> ->.
  split; [exact Hnf|]. split; [apply elem_of_app; left; exact Hdel|].
  split; [exact Hdry|]. exists e. split; assumption.
Qed.

(** X14: every string that Prune adds to the pruned list or to the
    skipped list is the formatted reference of a stale ledger entry
    whose handle could be built; the pruned list grows only outside
    dry-run and the skipped list only in dry-run. *)
Theorem X14_reported_references_are_stale_entries
    (p p' : Pruner) (us : UpdateStatusFunc) (w w' : World)
    (r : Result) (err : option error) (x : string) :
  Prune p us w = Returned (p', w', (r, err)) ->
  (x ∈ Pruned r ->
   x ∈ Pruned (result p)
   \/ (dryRun p = false
       /\ exists e obj, e ∈ children p
            /\ staleHandle p (desiredRefs p) (lastAppliedGen p) e obj
            /\ x = formatObjectReference (ObjectReference e)))
  /\ (x ∈ Skipped r ->
      x ∈ Skipped (result p)
      \/ (dryRun p = true
          /\ exists e obj, e ∈ children p
               /\ staleHandle p (desiredRefs p) (lastAppliedGen p) e obj
               /\ x = formatObjectReference (ObjectReference e))).
Proof.
  intros Hprune.
  destruct (Prune_inv _ _ _ _ _ _ _ Hprune)
    as [(_ & _ & -> & _) | (_ & s & Hloop & _ & -> & _)];
    [split; intros Hx; left; exact Hx|].
  destruct (pruneLoop_provenance _ _ _ _ _ _ Hloop) as (_ & Hpr & Hsk).
  split; intros Hx.
  - destruct (Hpr _ Hx) as [Hx0 | (e & obj & He & Hsh & Hdry & Heq)];
      [left; exact Hx0|].
    right. split; [exact Hdry|]. exists e, obj. auto.
  - destruct (Hsk _ Hx) as [Hx0 | (e & obj & He & Hsh & Hdry & Heq)];
      [left; exact Hx0|].
    right. split; [exact Hdry|]. exists e, obj. auto.
Qed.

(** ** Counting *)

Lemma iteration_count (p : Pruner) (d : gset string) (g : Z)
    (e : ManagedChild) (s s' : LoopState) :
  iteration p d g e s s' ->
  (length (newChildren s') + length (Pruned (loopResult s'))
     + length (Skipped (loopResult s'))
   <= length (newChildren s) + length (Pruned (loopResult s))
        + length (Skipped (loopResult s)) + 1)%nat
  /\ (length (newChildren s) + length (Pruned (loopResult s))
        + length (Skipped (loopResult s)) + length (pruneErrors s) + 1
      <= length (newChildren s') + length (Pruned (loopResult s'))
           + length (Skipped (loopResult s')) + length (pruneErrors s'))%nat.
Proof.
  intros Hit. destruct Hit; simpl; rewrite ?length_app; simpl; lia.
Qed.

Lemma pruneLoop_count (p : Pruner) (d : gset string) (g : Z)
    (cs : list ManagedChild) (s s' : LoopState) :
  pruneLoop p d g cs s = Returned s' ->
  (length (newChildren s') + length (Pruned (loopResult s'))
     + length (Skipped (loopResult s'))
   <= length (newChildren s) + length (Pruned (loopResult s))
        + length (Skipped (loopResult s)) + length cs)%nat
  /\ (length (newChildren s) + length (Pruned (loopResult s))
        + length (Skipped (loopResult s)) + length (pruneErrors s) + length cs
      <= length (newChildren s') + length (Pruned (loopResult s'))
           + length (Skipped (loopResult s')) + length (pruneErrors s'))%nat.
Proof.
  revert s. induction cs as [|e cs IH]; intros s Hloop; simpl in Hloop.
  - injection Hloop as <-. simpl. lia.
  - destruct (pruneChild p d g e s) as [s1|] eqn:Hstep; [|discriminate].
    apply pruneChild_iteration in Hstep.
    pose proof (iteration_count _ _ _ _ _ _ Hstep).
    pose proof (IH _ Hloop). simpl. lia.
Qed.

(** X15: when Prune runs its loop, no ledger entry is counted twice
    among the entries retained and the references newly reported as
    pruned or skipped; and when Prune returns no error every entry is
    counted exactly once: it is retained, or pruned, or skipped. *)
Theorem X15_every_entry_accounted_once
    (p p' : Pruner) (us : UpdateStatusFunc) (w w' : World)
    (r : Result) (err : option error) :
  GetGeneration (owner p) > lastAppliedGen p ->
  Prune p us w = Returned (p', w', (r, err)) ->
  (length (children p') + length (Pruned r) + length (Skipped r)
   <= length (children p) + length (Pruned (result p))
        + length (Skipped (result p)))%nat
  /\ (err = None ->
      (length (children p') + length (Pruned r) + length (Skipped r)
       = length (children p) + length (Pruned (result p))
           + length (Skipped (result p)))%nat).
Proof.
  intros Hgt Hprune.
  destruct (Prune_inv _ _ _ _ _ _ _ Hprune)
    as [(Hle & _) | (_ & s & Hloop & -> & -> & _ & Herr)]; [lia|].
  destruct (pruneLoop_count _ _ _ _ _ _ Hloop) as [Hup Hlow].
  simpl in Hup, Hlow |- *. split; [lia|].
  intros ->. symmetry in Herr. apply returnedError_None in Herr as [Herrs _].
  rewrite Herrs in Hlow. simpl in Hlow. lia.
Qed.

(** ** References and handles *)

(** X16: the reference that makeObjectReference builds for a resource
    leads objectFromReference back to a handle for that resource: when
    the API version written into the reference parses back to the group
    and version it came from, and the scheme has a type for the kind,
    the handle is the scheme's empty object of that type carrying the
    name and the namespace of the resource (its UID is not carried). *)
Theorem X16_reference_leads_back_to_the_resource
    (p : Pruner) (sch : Scheme) (obj o : Object)
    (gvk : schema.GroupVersionKind) (rest : list schema.GroupVersionKind) :
  scheme p = Some sch ->
  ObjectKinds sch obj = Ok (gvk :: rest) ->
  ParseGroupVersion (GroupVersionString (schema.GroupVersionOf gvk))
    = Ok (schema.GroupVersionOf gvk) ->
  New sch gvk = Ok (ClientObject o) ->
  exists ref handle,
    makeObjectReference p obj = Ok ref
    /\ corev1.UID ref = GetUID obj
    /\ objectFromReference p ref = Returned (Ok handle)
    /\ handle = SetNamespace (GetNamespace obj) (SetName (GetName obj) o)
    /\ GetName handle = GetName obj
    /\ GetNamespace handle = GetNamespace obj
    /\ GoType handle = GoType o
    /\ GetUID handle = GetUID o.
Proof.
  intros Hsch Hkinds Hparse Hnew.
  eexists _, _. unfold makeObjectReference, getGVK.
  rewrite Hsch, Hkinds. split; [reflexivity|]. split; [reflexivity|].
  unfold objectFromReference. simpl. rewrite Hparse, Hsch.
  destruct gvk as [gr ve ki]. simpl in Hnew |- *. rewrite Hnew.
  repeat split.
Qed.

(** ** Sessions without a scheme *)

Lemma markedRef_no_scheme (p : Pruner) (obj : Object) :
  scheme p = None -> markedRef p obj = None.
Proof.
  intros Hsch. unfold markedRef, makeObjectReference, getGVK. rewrite Hsch.
  case_decide; reflexivity.
Qed.

Lemma session_no_scheme (p : Pruner) (steps : list SessionStep) :
  scheme p = None ->
  children (session p steps) = children p
  /\ desiredRefs (session p steps) = desiredRefs p
  /\ markedRefs p steps = [].
Proof.
  unfold session. revert p.
  induction steps as [|st steps IH]; intros p Hsch; simpl; [repeat split|].
  destruct (sessionStep_frame p st) as (_ & Hsch' & _).
  destruct (IH (sessionStep p st)) as (-> & -> & ->); [congruence|].
  destruct st as [obj | g]; simpl; [|repeat split].
  rewrite MarkReconciled_markedRef, (markedRef_no_scheme _ _ Hsch).
  repeat split.
Qed.

(** X17: a Pruner built without a WithScheme option cannot mark
    anything: every MarkReconciled returns an error and changes nothing,
    so the ledger stays as NewPruner found it and the desired set stays
    empty throughout the session. *)
Theorem X17_no_scheme_no_marking
    (c : Client) (owner0 : Object) (cs : list ManagedChild)
    (opts : list Option) (steps : list SessionStep) (obj : Object) :
  Forall (fun opt => forall s, opt <> OptScheme s) opts ->
  let p := session (NewPruner c owner0 cs opts) steps in
  (exists err, MarkReconciled p obj = (p, Some err))
  /\ children p = cs
  /\ desiredRefs p = ∅
  /\ markedRefs (NewPruner c owner0 cs opts) steps = [].
Proof.
  intros Hopts p.
  assert (Hsch0 : scheme (NewPruner c owner0 cs opts) = None).
  { unfold NewPruner. cbv zeta. rewrite applyOptions_scheme by exact Hopts.
    reflexivity. }
  destruct (session_no_scheme _ steps Hsch0) as (Hch & Hd & Hm).
  destruct (NewPruner_state c owner0 cs opts) as (_ & _ & Hcs & Hd0 & _).
  destruct (session_frame (NewPruner c owner0 cs opts) steps) as (_ & Hsch & _).
  fold p in Hch, Hd, Hsch.
  split; [|split; [congruence | split; [congruence | exact Hm]]].
  rewrite MarkReconciled_markedRef.
  rewrite markedRef_no_scheme by congruence. eauto.
Qed.

(** ** Error policies *)

Lemma app_singleton_neq {A : Type} (l : list A) (x : A) : l ++ [x] <> l.
Proof.
  intros Heq. apply (f_equal length) in Heq.
  rewrite length_app in Heq. simpl in Heq. lia.
Qed.

(** With a policy that never returns nil, a loop that adds no error made
    nothing but Delete calls, one for each reference it reported as
    pruned. *)
Lemma pruneLoop_strict_policy (p : Pruner) (d : gset string) (g : Z)
    (cs : list ManagedChild) (s s' : LoopState) :
  (forall err obj, errorHandler p err obj <> None) ->
  pruneLoop p d g cs s = Returned s' ->
  pruneErrors s' = pruneErrors s ->
  exists objs,
    log (loopWorld s') = log (loopWorld s) ++ (EvDelete <$> objs)
    /\ length (Pruned (loopResult s'))
       = (length (Pruned (loopResult s)) + length objs)%nat.
Proof.
  intros Hstrict. revert s.
  induction cs as [|e cs IH]; intros s Hloop Herrs; simpl in Hloop.
  - injection Hloop as <-. exists []. simpl. rewrite app_nil_r. split; [reflexivity | lia].
  - destruct (pruneChild p d g e s) as [s1|] eqn:Hstep; [|discriminate].
    apply pruneChild_iteration in Hstep.
    pose proof (grows_pruneErrors _ _ (iteration_grows _ _ _ _ _ _ Hstep)) as Hp1.
    pose proof (grows_pruneErrors _ _ (pruneLoop_grows _ _ _ _ _ _ Hloop)) as Hp2.
    assert (H1 : pruneErrors s = pruneErrors s1).
    { apply prefix_same_length; [exact Hp1|].
      rewrite <- Herrs. apply prefix_length. exact Hp2. }
    destruct (IH _ Hloop) as (objs & Hlog & Hlen); [congruence|].
    rewrite Hlog, Hlen. clear IH Hloop Hlog Hlen Hp1 Hp2 Herrs.
    destruct Hstep as [Hk | cause Hst Hobj | obj Hst Hobj Hdry
                      | obj c r Hst Hobj Hdry Hdel Hnf
                      | obj c derr Hst Hobj Hdry Hdel Hnf Hh
                      | obj c derr herr Hst Hobj Hdry Hdel Hnf Hh];
      simpl in H1 |- *.
    + exists objs. split; [reflexivity | lia].
    + exfalso. symmetry in H1. exact (app_singleton_neq _ _ H1).
    + exists objs. split; [reflexivity | lia].
    + exists (obj :: objs). rewrite <- app_assoc, length_app. simpl.
      split; [reflexivity | lia].
    + exfalso. exact (Hstrict _ _ Hh).
    + exfalso. symmetry in H1. exact (app_singleton_neq _ _ H1).
Qed.

(** X18: under the default error policy (no WithErrorHandler option), a
    Prune that returns no error never consulted the policy: besides the
    status update it made only Delete calls, exactly as many as the
    references it added to the pruned list, each of which therefore
    succeeded or reported not-found. *)
Theorem X18_default_policy_success_means_clean_deletes
    (c : Client) (owner0 : Object) (cs : list ManagedChild)
    (opts : list Option) (steps : list SessionStep)
    (us : UpdateStatusFunc) (w w' : World) (p' : Pruner) (r : Result) :
  Forall (fun opt => forall h, opt <> OptErrorHandler h) opts ->
  let p := session (NewPruner c owner0 cs opts) steps in
  Prune p us w = Returned (p', w', (r, None)) ->
  exists objs,
    log w' = log w ++ (EvDelete <$> objs) ++ [EvUpdateStatus]
    /\ length (Pruned r) = length objs.
Proof.
  intros Hopts p Hprune.
  assert (Hh : errorHandler p = defaultErrorHandler).
  { unfold p.
    destruct (session_frame (NewPruner c owner0 cs opts) steps)
      as (_ & _ & _ & -> & _).
    unfold NewPruner. cbv zeta.
    rewrite applyOptions_errorHandler by exact Hopts. reflexivity. }
  assert (Hres : result p = {| Pruned := []; Skipped := [] |}).
  { unfold p.
    destruct (session_frame (NewPruner c owner0 cs opts) steps)
      as (_ & _ & _ & _ & -> & _).
    destruct (NewPruner_state c owner0 cs opts) as (_ & _ & _ & _ & -> & _).
    reflexivity. }
  destruct (Prune_inv _ _ _ _ _ _ _ Hprune)
    as [(_ & _ & -> & Hlog & _) | (_ & s & Hloop & _ & -> & Hlog & Herr)].
  - exists []. rewrite Hlog, Hres. split; reflexivity.
  - symmetry in Herr. apply returnedError_None in Herr as [Herrs _].
    destruct (pruneLoop_strict_policy p _ _ _ _ _
                ltac:(rewrite Hh; intros err obj; discriminate) Hloop Herrs)
      as (objs & Hlog' & Hlen).
    simpl in Hlog', Hlen. rewrite Hres in Hlen. simpl in Hlen.
    exists objs. rewrite Hlog, Hlog', <- app_assoc. split; [reflexivity | exact Hlen].
Qed.

(** With a policy that always returns nil nothing is retained after a
    failed deletion. *)
Lemma pruneLoop_lenient_policy (p : Pruner) (d : gset string) (g : Z)
    (cs : list ManagedChild) (s s' : LoopState) :
  (forall err obj, errorHandler p err obj = None) ->
  pruneLoop p d g cs s = Returned s' ->
  newChildren s' = newChildren s ++ filter (kept d g) cs
  /\ (dryRun p = false ->
      forall e obj, e ∈ cs -> staleHandle p d g e obj ->
        formatObjectReference (ObjectReference e) ∈ Pruned (loopResult s')).
Proof.
  intros Hlenient. revert s.
  induction cs as [|e0 cs IH]; intros s Hloop; simpl in Hloop.
  - injection Hloop as <-. rewrite app_nil_r. split; [reflexivity|].
    intros _ e obj Hin. exfalso. revert Hin. apply not_elem_of_nil.
  - destruct (pruneChild p d g e0 s) as [s1|] eqn:Hstep; [|discriminate].
    destruct (IH _ Hloop) as [Hch Hpr].
    pose proof (grows_Pruned _ _ (pruneLoop_grows _ _ _ _ _ _ Hloop)) as Hgrow.
    apply pruneChild_iteration in Hstep.
    assert (Hstep1 :
      newChildren s1 = newChildren s ++ filter (kept d g) [e0]
      /\ (dryRun p = false -> forall obj, staleHandle p d g e0 obj ->
          formatObjectReference (ObjectReference e0) ∈ Pruned (loopResult s1))).
    { destruct Hstep as [Hk | cause Hst Hobj | obj Hst Hobj Hdry
                        | obj c r Hst Hobj Hdry Hdel Hnf
                        | obj c derr Hst Hobj Hdry Hdel Hnf Hh
                        | obj c derr herr Hst Hobj Hdry Hdel Hnf Hh]; simpl.
      - rewrite filter_cons_True by exact Hk. split; [reflexivity|].
        intros _ obj [Hst _]. apply stale_not_kept in Hst. contradiction.
      - rewrite filter_cons_False by (apply stale_not_kept; exact Hst).
        rewrite app_nil_r. split; [reflexivity|].
        intros _ obj [_ Hobj']. congruence.
      - rewrite filter_cons_False by (apply stale_not_kept; exact Hst).
        rewrite app_nil_r. split; [reflexivity|]. congruence.
      - rewrite filter_cons_False by (apply stale_not_kept; exact Hst).
        rewrite app_nil_r. split; [reflexivity|]. intros _ _ _.
        apply elem_of_app. right. apply list_elem_of_singleton. reflexivity.
      - rewrite filter_cons_False by (apply stale_not_kept; exact Hst).
        rewrite app_nil_r. split; [reflexivity|]. intros _ _ _.
        apply elem_of_app. right. apply list_elem_of_singleton. reflexivity.
      - rewrite Hlenient in Hh. discriminate. }
    destruct Hstep1 as [Hch1 Hpr1]. split.
    + rewrite Hch, Hch1. change (e0 :: cs) with ([e0] ++ cs).
      rewrite filter_app, app_assoc. reflexivity.
    + intros Hdry e obj Hin Hsh.
      apply elem_of_cons in Hin as [-> | Hin]; [|eapply Hpr; eassumption].
      eapply elem_of_prefix; [exact Hgrow|]. eapply Hpr1; eassumption.
Qed.

(** X19: with an error handler that returns nil for every error (the
    "log and continue" handler), a Prune outside dry-run at an advanced
    generation returns with a ledger that holds the kept entries only,
    and reports as pruned every stale entry whose handle could be built,
    whether its deletion worked or not; an error can then only come from
    a handle that could not be built or from the status update. *)
Theorem X19_lenient_policy_drops_every_stale_entry
    (p : Pruner) (us : UpdateStatusFunc) (w : World) :
  (forall err obj, errorHandler p err obj = None) ->
  is_Some (scheme p) ->
  dryRun p = false ->
  GetGeneration (owner p) > lastAppliedGen p ->
  exists p' w' r err,
    Prune p us w = Returned (p', w', (r, err))
    /\ children p'
       = filter (kept (desiredRefs p) (lastAppliedGen p)) (children p)
    /\ forall e obj,
         e ∈ children p ->
         staleHandle p (desiredRefs p) (lastAppliedGen p) e obj ->
         formatObjectReference (ObjectReference e) ∈ Pruned r.
Proof.
  intros Hlenient Hsch Hdry Hgt.
  destruct (pruneLoop_returns p (desiredRefs p) (lastAppliedGen p) (children p)
              {| newChildren := []; pruneErrors := [];
                 loopResult := result p; loopWorld := w |} Hsch) as [s Hloop].
  destruct (pruneLoop_lenient_policy _ _ _ _ _ _ Hlenient Hloop) as [Hch Hpr].
  eexists _, _, _, _.
  split; [apply (Prune_advanced p us w s Hgt Hloop)|].
  split; [exact Hch|]. intros e obj Hin Hsh. eapply Hpr; eassumption.
Qed.

(** ** The string helpers of the tests *)

Lemma append_nil_r (s : string) : s +:+ "" = s.
Proof.
  induction s as [|a s IH]; [reflexivity|].
  change (String a (s +:+ "") = String a s). f_equal. exact IH.
Qed.

Lemma length_append (s1 s2 : string) :
  String.length (s1 +:+ s2) = (String.length s1 + String.length s2)%nat.
Proof.
  induction s1 as [|a s1 IH]; [reflexivity|].
  change (S (String.length (s1 +:+ s2)) = S (String.length s1 + String.length s2)).
  f_equal. exact IH.
Qed.

Lemma substring_0_prefix (sub post : string) :
  String.substring 0 (String.length sub) (sub +:+ post) = sub.
Proof.
  induction sub as [|a sub IH]; simpl.
  - destruct post; reflexivity.
  - f_equal. exact IH.
Qed.

Lemma substring_at (pre sub post : string) :
  String.substring (String.length pre) (String.length sub) (pre +:+ sub +:+ post)
  = sub.
Proof.
  induction pre as [|a pre IH];
    [exact (substring_0_prefix sub post) | exact IH].
Qed.

Lemma substring_0_inv (n : nat) (s sub : string) :
  String.length sub = n -> String.substring 0 n s = sub ->
  exists post, s = sub +:+ post.
Proof.
  revert s sub. induction n as [|n IH]; intros s sub Hlen Hsub.
  - destruct sub; [|discriminate]. exists s. reflexivity.
  - destruct s as [|a s]; simpl in Hsub.
    + subst sub. discriminate.
    + destruct sub as [|b sub]; [discriminate|].
      injection Hsub as -> Hsub. injection Hlen as Hlen.
      destruct (IH _ _ Hlen Hsub) as [post ->]. exists post. reflexivity.
Qed.

Lemma substring_inv (i n : nat) (s sub : string) :
  String.length sub = n -> String.substring i n s = sub ->
  exists pre post, s = pre +:+ sub +:+ post.
Proof.
  revert s. induction i as [|i IH]; intros s Hlen Hsub.
  - destruct (substring_0_inv _ _ _ Hlen Hsub) as [post ->].
    exists "", post. reflexivity.
  - destruct s as [|a s]; simpl in Hsub.
    + subst sub. exists "", "". reflexivity.
    + destruct (IH _ Hlen Hsub) as (pre & post & ->).
      exists (String a pre), post. reflexivity.
Qed.

Lemma containsAtLoop_true (s substr : string) (i n : nat) :
  containsAtLoop s substr i n = true
  <-> exists j, (i <= j < i + n)%nat
        /\ String.substring j (String.length substr) s = substr.
Proof.
  revert i. induction n as [|n IH]; intros i; simpl.
  - split; [discriminate|]. intros (j & Hj & _). lia.
  - case_bool_decide as Hi.
    + split; [|reflexivity]. intros _. exists i. split; [lia | exact Hi].
    + rewrite IH. split.
      * intros (j & Hj & Hsub). exists j. split; [lia | exact Hsub].
      * intros (j & Hj & Hsub). exists j. split; [|exact Hsub].
        destruct (decide (j = i)) as [-> | Hne]; [contradiction | lia].
Qed.

(** X20: the helper [contains] of the tests is true exactly when its
    second argument occurs in the first as a contiguous piece; so it is
    true of every string and the empty string. *)
Theorem X20_contains_decides_substring (s substr : string) :
  (contains s substr = true <-> exists pre post, s = pre +:+ substr +:+ post)
  /\ contains s "" = true.
Proof.
  assert (Hiff : forall substr,
            contains s substr = true
            <-> exists pre post, s = pre +:+ substr +:+ post).
  { clear substr. intros substr. unfold contains, containsAt. split.
    - intros H. apply andb_prop in H as [_ H].
      apply orb_prop in H as [H | H].
      + apply bool_decide_eq_true in H as ->.
        exists "", "". simpl. symmetry. apply append_nil_r.
      + apply andb_prop in H as [_ H].
        apply containsAtLoop_true in H as (j & _ & Hsub).
        eapply substring_inv; [reflexivity | exact Hsub].
    - intros (pre & post & ->).
      rewrite !length_append.
      apply andb_true_intro. split; [apply bool_decide_eq_true; lia|].
      case_bool_decide as Heq; [reflexivity|]. simpl.
      assert (Hlt : (String.length substr
                     < String.length pre + (String.length substr + String.length post))%nat).
      { destruct pre as [|a pre]; [|simpl; lia].
        destruct post as [|b post]; [|simpl; lia].
        exfalso. apply Heq. simpl. apply append_nil_r. }
      apply andb_true_intro. split; [apply bool_decide_eq_true; exact Hlt|].
      apply containsAtLoop_true. exists (String.length pre).
      split; [lia | apply substring_at]. }
  split; [apply Hiff|].
  apply Hiff. exists "", s. reflexivity.
Qed.
End Properties.

(* ================================================================== *)
(** * The scenarios, run *)
(* ================================================================== *)

(** ** Baseline *)

(** On a ledger without negative generations the baseline is the maximum
    observedGeneration, as in every scenario below. *)
Example baseline_scenarioB :
  getLastAppliedGeneration ledgerXY 2 = 1
  /\ baselineMaxDefault ledgerXY = 1
  /\ baselineFourSteps ledgerXY 2 = 1.
Proof. repeat split. Qed.

(** ** MarkReconciled *)

Lemma C6_witness_empty_UID :
  (GetUID (testDeployment "x" "") = ""
   \/ exists e, makeObjectReference scenarioB (testDeployment "x" "") = Err e)
  /\ exists err,
       MarkReconciled scenarioB (testDeployment "x" "") = (scenarioB, Some err)
       /\ desiredRefs (fst (MarkReconciled scenarioB (testDeployment "x" "")))
          = desiredRefs scenarioB
       /\ children (fst (MarkReconciled scenarioB (testDeployment "x" "")))
          = children scenarioB.
Proof.
  assert (H : GetUID (testDeployment "x" "") = ""
              \/ exists e, makeObjectReference scenarioB (testDeployment "x" "") = Err e)
    by (left; reflexivity).
  split; [exact H|].
  exact (C6_MarkReconciled_fails_without_mutation scenarioB (testDeployment "x" "") H).
Defined.

Lemma C7_witness_mark_Y :
  MarkReconciled (NewPruner fakeClient (testOwner 2) ledgerXY withFakeScheme)
    (testDeployment "y" "uid-y") = (scenarioB, None)
  /\ entry "y" "uid-y" 2 ∈ children scenarioB
  /\ NoDup (ObjectReference <$> children scenarioB).
Proof.
  assert (H : MarkReconciled
                (NewPruner fakeClient (testOwner 2) ledgerXY withFakeScheme)
                (testDeployment "y" "uid-y") = (scenarioB, None))
    by reflexivity.
  split; [exact H|].
  destruct (C7_MarkReconciled_upserts_ledger _ _ _ H)
    as (ref & Href & _ & _ & _ & Hin & _ & Hnodup).
  vm_compute in Href. injection Href as <-.
  split; [exact Hin|].
  apply Hnodup. vm_compute. repeat constructor; compute_done.
Defined.

(** ** Prune *)

(** Scenario A: empty ledger, two resources marked at generation 1:
    nothing is pruned and the ledger holds both at generation 1. *)
Example scenarioA :
  exists w',
    Prune
      (session (NewPruner fakeClient (testOwner 1) [] withFakeScheme)
         [Mark (testDeployment "x" "uid-x"); Mark (testDeployment "y" "uid-y")])
      fakeUpdateStatus (emptyWorld clusterXY)
    = Returned
        (session (NewPruner fakeClient (testOwner 1) [] withFakeScheme)
           [Mark (testDeployment "x" "uid-x"); Mark (testDeployment "y" "uid-y")],
         w', ({| Pruned := []; Skipped := [] |}, None))
    /\ children
         (session (NewPruner fakeClient (testOwner 1) [] withFakeScheme)
            [Mark (testDeployment "x" "uid-x"); Mark (testDeployment "y" "uid-y")])
       = [entry "x" "uid-x" 1; entry "y" "uid-y" 1].
Proof.
  exists (@mkWorld fakeKubernetes clusterXY [EvUpdateStatus]).
  split; vm_compute; reflexivity.
Qed.

(** Scenario D: no pruning while the generation stays at the baseline. *)
Lemma C2_witness_scenarioD :
  GetGeneration (owner scenarioD)
    <= getLastAppliedGeneration ledgerXY (GetGeneration (testOwner 1))
  /\ Prune scenarioD fakeUpdateStatus (emptyWorld clusterXY)
     = Returned (scenarioD,
         {| cluster := fst (fakeUpdateStatus (children scenarioD)
                              (cluster (emptyWorld clusterXY)));
            log := log (emptyWorld clusterXY) ++ [EvUpdateStatus] |},
         ({| Pruned := []; Skipped := [] |},
          returnedError []
            (snd (fakeUpdateStatus (children scenarioD)
                    (cluster (emptyWorld clusterXY)))))).
Proof.
  assert (H : GetGeneration (owner scenarioD)
              <= getLastAppliedGeneration ledgerXY (GetGeneration (testOwner 1)))
    by (vm_compute; discriminate).
  split; [exact H|].
  exact (C2_Prune_steady_generation_prunes_nothing fakeClient (testOwner 1)
           ledgerXY withFakeScheme scenarioB_steps fakeUpdateStatus
           (emptyWorld clusterXY) H).
Defined.

(** Scenario B: X is pruned, Y survives. *)
Lemma C1_witness_scenarioB :
  GetGeneration (owner scenarioB)
    > getLastAppliedGeneration ledgerXY (GetGeneration (testOwner 2))
  /\ Prune scenarioB fakeUpdateStatus (emptyWorld clusterXY)
     = Returned (scenarioB_pruned, scenarioB_world,
                 ({| Pruned := ["Deployment default/x"]; Skipped := [] |}, None))
  /\ children scenarioB_pruned
     = filter (kept (desiredRefs scenarioB)
                 (getLastAppliedGeneration ledgerXY (GetGeneration (testOwner 2))))
         (children scenarioB).
Proof.
  assert (H1 : GetGeneration (owner scenarioB)
               > getLastAppliedGeneration ledgerXY (GetGeneration (testOwner 2)))
    by (vm_compute; reflexivity).
  assert (H2 : Prune scenarioB fakeUpdateStatus (emptyWorld clusterXY)
               = Returned (scenarioB_pruned, scenarioB_world,
                   ({| Pruned := ["Deployment default/x"]; Skipped := [] |}, None)))
    by (vm_compute; reflexivity).
  split; [exact H1|]. split; [exact H2|].
  exact (proj1 (C1_survivors_by_key_or_generation fakeClient (testOwner 2)
                  ledgerXY withFakeScheme scenarioB_steps fakeUpdateStatus
                  (emptyWorld clusterXY) scenarioB_world scenarioB_pruned
                  {| Pruned := ["Deployment default/x"]; Skipped := [] |}
                  H1 H2)).
Defined.

(** C1, as the claim states it, fails: X was recreated and is marked
    under its new UID; the ledger entry with the old UID, whose reference
    was not marked and whose generation is not above the baseline,
    survives a Prune that returns no error. *)
Lemma C1_counterexample_old_UID_survives :
  exists p' w',
    GetGeneration (owner recreatedX) > lastAppliedGen recreatedX
    /\ lastAppliedGen recreatedX
       = getLastAppliedGeneration ledgerOldX (GetGeneration (testOwner 2))
    /\ Prune recreatedX fakeUpdateStatus (emptyWorld clusterXY)
       = Returned (p', w', ({| Pruned := []; Skipped := [] |}, None))
    /\ entry "x" "uid-old" 1 ∈ children recreatedX
    /\ entry "x" "uid-old" 1 ∈ children p'
    /\ markedRefs (NewPruner fakeClient (testOwner 2) ledgerOldX withFakeScheme)
         recreatedX_steps = [deploymentRef "x" "uid-new"]
    /\ (ObjectReference (entry "x" "uid-old" 1)
          ∉ markedRefs (NewPruner fakeClient (testOwner 2) ledgerOldX withFakeScheme)
              recreatedX_steps)
    /\ ~ (ObservedGeneration (entry "x" "uid-old" 1) > lastAppliedGen recreatedX).
Proof.
  exists (set_children [entry "x" "uid-old" 1; entry "x" "uid-new" 2] recreatedX),
         (@mkWorld fakeKubernetes clusterXY [EvUpdateStatus]).
  split; [vm_compute; reflexivity|].
  split; [vm_compute; reflexivity|].
  split; [vm_compute; reflexivity|].
  split; [compute_done|].
  split; [compute_done|].
  split; [vm_compute; reflexivity|].
  split; [compute_done|].
  vm_compute. intros H. discriminate H.
Qed.


(** Scenario E: the deletion of [locked] fails, the default policy
    returns the error, [locked] stays in the ledger and X is still
    deleted. *)
Lemma C4_witness_scenarioE :
  (GetGeneration (owner scenarioE) > lastAppliedGen scenarioE
   /\ dryRun scenarioE = false
   /\ children scenarioE = [] ++ entry "locked" "uid-l" 1 :: [entry "x" "uid-x" 1]
   /\ stale (desiredRefs scenarioE) (lastAppliedGen scenarioE)
        (entry "locked" "uid-l" 1)
   /\ objectFromReference scenarioE (ObjectReference (entry "locked" "uid-l" 1))
      = Returned (Ok (deploymentHandle "locked"))
   /\ pruneStaleResources scenarioE [] (desiredRefs scenarioE)
        (lastAppliedGen scenarioE) (result scenarioE) (emptyWorld clusterLockedX)
      = Returned (loopStart scenarioE (emptyWorld clusterLockedX))
   /\ Delete (client scenarioE)
        (cluster (loopWorld (loopStart scenarioE (emptyWorld clusterLockedX))))
        (deploymentHandle "locked")
      = (clusterLockedX, Some (External "Forbidden"))
   /\ @IsNotFound fakeKubernetes (External "Forbidden") = false
   /\ errorHandler scenarioE (External "Forbidden") (deploymentHandle "locked")
      = Some (Errorf "failed to delete %s: %w" (Some (External "Forbidden"))))
  /\ exists p' w' r err,
       Prune scenarioE fakeUpdateStatus (emptyWorld clusterLockedX)
       = Returned (p', w', (r, Some err))
       /\ entry "locked" "uid-l" 1 ∈ children p'
       /\ EvDelete (deploymentHandle "x") ∈ log w'
       /\ wraps err (Errorf "failed to delete %s: %w" (Some (External "Forbidden"))).
Proof.
  assert (H1 : GetGeneration (owner scenarioE) > lastAppliedGen scenarioE)
    by (vm_compute; reflexivity).
  assert (H2 : dryRun scenarioE = false) by reflexivity.
  assert (H3 : children scenarioE
               = [] ++ entry "locked" "uid-l" 1 :: [entry "x" "uid-x" 1])
    by reflexivity.
  assert (H4 : stale (desiredRefs scenarioE) (lastAppliedGen scenarioE)
                 (entry "locked" "uid-l" 1)) by compute_done.
  assert (H5 : objectFromReference scenarioE
                 (ObjectReference (entry "locked" "uid-l" 1))
               = Returned (Ok (deploymentHandle "locked"))) by reflexivity.
  assert (H6 : pruneStaleResources scenarioE [] (desiredRefs scenarioE)
                 (lastAppliedGen scenarioE) (result scenarioE)
                 (emptyWorld clusterLockedX)
               = Returned (loopStart scenarioE (emptyWorld clusterLockedX)))
    by reflexivity.
  assert (H7 : Delete (client scenarioE)
                 (cluster (loopWorld (loopStart scenarioE (emptyWorld clusterLockedX))))
                 (deploymentHandle "locked")
               = (clusterLockedX, Some (External "Forbidden"))) by reflexivity.
  assert (H8 : @IsNotFound fakeKubernetes (External "Forbidden") = false) by reflexivity.
  assert (H9 : errorHandler scenarioE (External "Forbidden") (deploymentHandle "locked")
               = Some (Errorf "failed to delete %s: %w" (Some (External "Forbidden"))))
    by reflexivity.
  split; [repeat (split; [assumption|]); assumption|].
  destruct (C4_failed_deletion_is_retained_and_aggregated scenarioE
              fakeUpdateStatus (emptyWorld clusterLockedX) [] [entry "x" "uid-x" 1]
              (entry "locked" "uid-l" 1) (deploymentHandle "locked")
              (loopStart scenarioE (emptyWorld clusterLockedX)) clusterLockedX
              (External "Forbidden")
              (Errorf "failed to delete %s: %w" (Some (External "Forbidden")))
              H1 H2 H3 H4 H5 H6 H7 H8 H9)
    as (s2 & sN & p' & w' & err & _ & _ & _ & _ & _ & Hprune & _ & Hin & Herr
        & Hrest & Hupd).
  exists p', w', (loopResult sN), err.
  split; [exact Hprune|]. split; [exact Hin|]. split.
  - apply (Hrest (entry "x" "uid-x" 1) (deploymentHandle "x")).
    + apply list_elem_of_singleton. reflexivity.
    + compute_done.
    + reflexivity.
  - cbn in Hupd. destruct Hupd as [_ Hwraps]. apply Hwraps. exact Herr.
Defined.

(** C4, as the claim states it, fails: in scenario E with a status update
    that fails, the error that Prune returns is the wrapped status-update
    error, which does not wrap the accumulated deletion failure. *)
Lemma C4_counterexample_status_update_fails :
  exists p' w' r,
    Prune scenarioE failingUpdateStatus (emptyWorld clusterLockedX)
    = Returned (p', w',
        (r, Some (Errorf "failed to update status after prune errors: %w"
                    (Some (External "Conflict")))))
    /\ entry "locked" "uid-l" 1 ∈ children p'
    /\ errorHandler scenarioE (External "Forbidden") (deploymentHandle "locked")
       = Some (Errorf "failed to delete %s: %w" (Some (External "Forbidden")))
    /\ ~ wraps
           (Errorf "failed to update status after prune errors: %w"
              (Some (External "Conflict")))
           (Errorf "failed to delete %s: %w" (Some (External "Forbidden"))).
Proof.
  exists (set_result {| Pruned := ["Deployment default/x"]; Skipped := [] |}
            (set_children [entry "locked" "uid-l" 1] scenarioE)),
         (@mkWorld fakeKubernetes [("Deployment", "default", "locked")]
            [EvDelete (deploymentHandle "locked");
             EvErrorHandler (External "Forbidden") (deploymentHandle "locked");
             EvDelete (deploymentHandle "x"); EvUpdateStatus]),
         {| Pruned := ["Deployment default/x"]; Skipped := [] |}.
  split; [vm_compute; reflexivity|].
  split; [compute_done|].
  split; [reflexivity|].
  intros Hw. inversion Hw as [| f e c Hw' |]; subst.
  inversion Hw'.
Qed.

(** C5, as the claim states it, fails: Y is marked under the UID [uid-2];
    the ledger entry for Y with the UID [uid-1], a different reference,
    is classified Keep-desired all the same. *)
Lemma C5_counterexample_key_ignores_UID :
  keepDesired (desiredRefs recreatedY) (entry "y" "uid-1" 1)
  /\ markedRefs (NewPruner fakeClient (testOwner 2) ledgerOldY withFakeScheme)
       recreatedY_steps = [deploymentRef "y" "uid-2"]
  /\ (ObjectReference (entry "y" "uid-1" 1)
        ∉ markedRefs (NewPruner fakeClient (testOwner 2) ledgerOldY withFakeScheme)
            recreatedY_steps)
  /\ deploymentRef "y" "uid-1" <> deploymentRef "y" "uid-2"
  /\ makeRefKey (deploymentRef "y" "uid-1") = makeRefKey (deploymentRef "y" "uid-2")
  /\ forall s : @LoopState fakeKubernetes,
       pruneChild recreatedY (desiredRefs recreatedY) (lastAppliedGen recreatedY)
         (entry "y" "uid-1" 1) s
       = Returned (keepChild (entry "y" "uid-1" 1) s).
Proof.
  assert (Hd : keepDesired (desiredRefs recreatedY) (entry "y" "uid-1" 1))
    by (unfold keepDesired; compute_done).
  split; [exact Hd|].
  split; [vm_compute; reflexivity|].
  split; [compute_done|].
  split; [discriminate|].
  split; [reflexivity|].
  intros s. apply pruneChild_kept. left. exact Hd.
Qed.

(** X is already gone from the cluster: it counts as pruned. *)
Lemma C8_witness_already_deleted :
  (GetGeneration (owner scenarioB) > lastAppliedGen scenarioB
   /\ dryRun scenarioB = false
   /\ children scenarioB = [] ++ entry "x" "uid-x" 1 :: [entry "y" "uid-y" 2]
   /\ stale (desiredRefs scenarioB) (lastAppliedGen scenarioB) (entry "x" "uid-x" 1)
   /\ objectFromReference scenarioB (ObjectReference (entry "x" "uid-x" 1))
      = Returned (Ok (deploymentHandle "x"))
   /\ pruneStaleResources scenarioB [] (desiredRefs scenarioB)
        (lastAppliedGen scenarioB) (result scenarioB) (emptyWorld clusterY)
      = Returned (loopStart scenarioB (emptyWorld clusterY))
   /\ Delete (client scenarioB)
        (cluster (loopWorld (loopStart scenarioB (emptyWorld clusterY))))
        (deploymentHandle "x")
      = (clusterY, Some (External "NotFound"))
   /\ @IsNotFound fakeKubernetes (External "NotFound") = true)
  /\ exists p' w' r err,
       Prune scenarioB fakeUpdateStatus (emptyWorld clusterY)
       = Returned (p', w', (r, err))
       /\ "Deployment default/x" ∈ Pruned r
       /\ exists keptPost,
            children p' = keptPost /\ keptPost `sublist_of` [entry "y" "uid-y" 2].
Proof.
  assert (H1 : GetGeneration (owner scenarioB) > lastAppliedGen scenarioB)
    by (vm_compute; reflexivity).
  assert (H2 : dryRun scenarioB = false) by reflexivity.
  assert (H3 : children scenarioB
               = [] ++ entry "x" "uid-x" 1 :: [entry "y" "uid-y" 2])
    by reflexivity.
  assert (H4 : stale (desiredRefs scenarioB) (lastAppliedGen scenarioB)
                 (entry "x" "uid-x" 1)) by compute_done.
  assert (H5 : objectFromReference scenarioB (ObjectReference (entry "x" "uid-x" 1))
               = Returned (Ok (deploymentHandle "x"))) by reflexivity.
  assert (H6 : pruneStaleResources scenarioB [] (desiredRefs scenarioB)
                 (lastAppliedGen scenarioB) (result scenarioB) (emptyWorld clusterY)
               = Returned (loopStart scenarioB (emptyWorld clusterY)))
    by reflexivity.
  assert (H7 : Delete (client scenarioB)
                 (cluster (loopWorld (loopStart scenarioB (emptyWorld clusterY))))
                 (deploymentHandle "x")
               = (clusterY, Some (External "NotFound"))) by reflexivity.
  assert (H8 : @IsNotFound fakeKubernetes (External "NotFound") = true) by reflexivity.
  split; [repeat (split; [assumption|]); assumption|].
  destruct (C8_not_found_counts_as_pruned scenarioB fakeUpdateStatus
              (emptyWorld clusterY) [] [entry "y" "uid-y" 2]
              (entry "x" "uid-x" 1) (deploymentHandle "x")
              (loopStart scenarioB (emptyWorld clusterY)) clusterY
              (External "NotFound") H1 H2 H3 H4 H5 H6 H7 H8)
    as (s2 & sN & p' & w' & err & _ & _ & _ & _ & _ & _ & _ & _ & Hprune & Hin
        & (ks & Hks & _ & Hsub)).
  exists p', w', (loopResult sN), err.
  split; [exact Hprune|]. split; [exact Hin|].
  exists ks. split; [exact Hks | exact Hsub].
Defined.


(* ================================================================== *)
(** * The further properties, on the scenarios *)
(* ================================================================== *)

Lemma X5_witness_scenarioB :
  (entry "y" "uid-y" 2 ∈ children scenarioB
   /\ keepFresh (lastAppliedGen scenarioB) (entry "y" "uid-y" 2))
  /\ keepDesired (desiredRefs scenarioB) (entry "y" "uid-y" 2).
Proof.
  assert (H1 : entry "y" "uid-y" 2 ∈ children scenarioB) by compute_done.
  assert (H2 : keepFresh (lastAppliedGen scenarioB) (entry "y" "uid-y" 2))
    by (vm_compute; reflexivity).
  split; [split; assumption|].
  exact (X5_fresh_entries_are_desired fakeClient (testOwner 2) ledgerXY
           withFakeScheme scenarioB_steps (entry "y" "uid-y" 2) H1 H2).
Defined.

Lemma X6_witness_mark_Y_twice :
  MarkReconciled (NewPruner fakeClient (testOwner 2) ledgerXY withFakeScheme)
    (testDeployment "y" "uid-y") = (scenarioB, None)
  /\ MarkReconciled scenarioB (testDeployment "y" "uid-y") = (scenarioB, None).
Proof.
  assert (H : MarkReconciled
                (NewPruner fakeClient (testOwner 2) ledgerXY withFakeScheme)
                (testDeployment "y" "uid-y") = (scenarioB, None))
    by reflexivity.
  split; [exact H|].
  exact (X6_MarkReconciled_twice _ _ _ H).
Defined.

Lemma X8_witness_redundant_reconcile :
  (MarkReconciled (NewPruner fakeClient (testOwner 2) ledgerXY withFakeScheme)
     (testDeployment "y" "uid-y") = (scenarioB, None)
   /\ GetGeneration (owner scenarioRedundant)
      <= GetGeneration
           (owner (NewPruner fakeClient (testOwner 2) ledgerXY withFakeScheme)))
  /\ Prune scenarioRedundant fakeUpdateStatus (emptyWorld clusterXY)
     = Returned (scenarioRedundant,
         {| cluster := fst (fakeUpdateStatus (children scenarioRedundant)
                              (cluster (emptyWorld clusterXY)));
            log := log (emptyWorld clusterXY) ++ [EvUpdateStatus] |},
         ({| Pruned := []; Skipped := [] |},
          returnedError []
            (snd (fakeUpdateStatus (children scenarioRedundant)
                    (cluster (emptyWorld clusterXY)))))).
Proof.
  assert (H1 : MarkReconciled
                 (NewPruner fakeClient (testOwner 2) ledgerXY withFakeScheme)
                 (testDeployment "y" "uid-y") = (scenarioB, None))
    by reflexivity.
  assert (H2 : GetGeneration (owner scenarioRedundant)
               <= GetGeneration
                    (owner (NewPruner fakeClient (testOwner 2) ledgerXY
                              withFakeScheme)))
    by (vm_compute; discriminate).
  split; [split; assumption|].
  exact (X8_redundant_reconcile_prunes_nothing _ _ _ fakeClient withFakeScheme []
           fakeUpdateStatus (emptyWorld clusterXY) H1 H2).
Defined.

Lemma scenarioB_Prune :
  Prune scenarioB fakeUpdateStatus (emptyWorld clusterXY)
  = Returned (scenarioB_pruned, scenarioB_world,
              ({| Pruned := ["Deployment default/x"]; Skipped := [] |}, None)).
Proof. vm_compute. reflexivity. Qed.

Lemma scenarioE_Prune :
  Prune scenarioE fakeUpdateStatus (emptyWorld clusterLockedX)
  = Returned (scenarioE_pruned, scenarioE_world,
              ({| Pruned := ["Deployment default/x"]; Skipped := [] |},
               Some (Join [Errorf "failed to delete %s: %w"
                             (Some (External "Forbidden"))]))).
Proof. vm_compute. reflexivity. Qed.

Lemma X9_witness_scenarioB_again :
  Prune scenarioB fakeUpdateStatus (emptyWorld clusterXY)
  = Returned (scenarioB_pruned, scenarioB_world,
              ({| Pruned := ["Deployment default/x"]; Skipped := [] |}, None))
  /\ Prune scenarioB_pruned fakeUpdateStatus scenarioB_world
     = Returned (scenarioB_pruned,
         {| cluster := fst (fakeUpdateStatus (children scenarioB_pruned)
                              (cluster scenarioB_world));
            log := log scenarioB_world ++ [EvUpdateStatus] |},
         ({| Pruned := ["Deployment default/x"]; Skipped := [] |},
          returnedError []
            (snd (fakeUpdateStatus (children scenarioB_pruned)
                    (cluster scenarioB_world))))).
Proof.
  split; [exact scenarioB_Prune|].
  exact (X9_Prune_again_after_success _ _ _ fakeUpdateStatus _ _ scenarioB_world
           _ scenarioB_Prune).
Defined.

Lemma X10_witness_scenarioB :
  Prune scenarioB fakeUpdateStatus (emptyWorld clusterXY)
  = Returned (scenarioB_pruned, scenarioB_world,
              ({| Pruned := ["Deployment default/x"]; Skipped := [] |}, None))
  /\ children scenarioB_pruned `sublist_of` children scenarioB
  /\ (NoDup (ObjectReference <$> children scenarioB) ->
      NoDup (ObjectReference <$> children scenarioB_pruned)).
Proof.
  split; [exact scenarioB_Prune|].
  exact (X10_Prune_leaves_a_sublist _ _ _ _ _ _ _ scenarioB_Prune).
Defined.

Lemma X11_witness_scenarioB :
  Prune scenarioB fakeUpdateStatus (emptyWorld clusterXY)
  = Returned (scenarioB_pruned, scenarioB_world,
              ({| Pruned := ["Deployment default/x"]; Skipped := [] |}, None))
  /\ deploymentRef "y" "uid-y" ∈ ObjectReference <$> children scenarioB_pruned.
Proof.
  split; [exact scenarioB_Prune|].
  apply (X11_marked_references_survive_Prune fakeClient (testOwner 2) ledgerXY
           withFakeScheme scenarioB_steps fakeUpdateStatus _ _ _ _ _
           scenarioB_Prune).
  compute_done.
Defined.

Lemma X12_witness_scenarioB :
  (Prune scenarioB fakeUpdateStatus (emptyWorld clusterXY)
   = Returned (scenarioB_pruned, scenarioB_world,
               ({| Pruned := ["Deployment default/x"]; Skipped := [] |}, None))
   /\ EvDelete (deploymentHandle "x") ∈ log scenarioB_world)
  /\ (EvDelete (deploymentHandle "x") ∈ log (emptyWorld clusterXY)
      \/ (GetGeneration (owner scenarioB) > lastAppliedGen scenarioB
          /\ dryRun scenarioB = false
          /\ exists e, e ∈ children scenarioB
               /\ staleHandle scenarioB (desiredRefs scenarioB)
                    (lastAppliedGen scenarioB) e (deploymentHandle "x"))).
Proof.
  assert (H : EvDelete (deploymentHandle "x") ∈ log scenarioB_world)
    by (apply elem_of_cons; left; reflexivity).
  split; [split; [exact scenarioB_Prune | exact H]|].
  exact (X12_Delete_only_for_stale_entries _ _ _ _ _ _ _ _ scenarioB_Prune H).
Defined.

Lemma X13_witness_scenarioE :
  (Prune scenarioE fakeUpdateStatus (emptyWorld clusterLockedX)
   = Returned (scenarioE_pruned, scenarioE_world,
               ({| Pruned := ["Deployment default/x"]; Skipped := [] |},
                Some (Join [Errorf "failed to delete %s: %w"
                              (Some (External "Forbidden"))])))
   /\ EvErrorHandler (External "Forbidden") (deploymentHandle "locked")
        ∈ log scenarioE_world)
  /\ (EvErrorHandler (External "Forbidden") (deploymentHandle "locked")
        ∈ log (emptyWorld clusterLockedX)
      \/ (@IsNotFound fakeKubernetes (External "Forbidden") = false
          /\ EvDelete (deploymentHandle "locked") ∈ log scenarioE_world
          /\ dryRun scenarioE = false
          /\ exists e, e ∈ children scenarioE
               /\ staleHandle scenarioE (desiredRefs scenarioE)
                    (lastAppliedGen scenarioE) e (deploymentHandle "locked"))).
Proof.
  assert (H : EvErrorHandler (External "Forbidden") (deploymentHandle "locked")
                ∈ log scenarioE_world)
    by (apply elem_of_cons; right; apply elem_of_cons; left; reflexivity).
  split; [split; [exact scenarioE_Prune | exact H]|].
  exact (X13_errorHandler_only_after_failed_Delete _ _ _ _ _ _ _ _ _
           scenarioE_Prune H).
Defined.

Lemma X14_witness_scenarioB :
  Prune scenarioB fakeUpdateStatus (emptyWorld clusterXY)
  = Returned (scenarioB_pruned, scenarioB_world,
              ({| Pruned := ["Deployment default/x"]; Skipped := [] |}, None))
  /\ exists e obj,
       e ∈ children scenarioB
       /\ staleHandle scenarioB (desiredRefs scenarioB)
            (lastAppliedGen scenarioB) e obj
       /\ "Deployment default/x" = formatObjectReference (ObjectReference e).
Proof.
  split; [exact scenarioB_Prune|].
  destruct (proj1 (X14_reported_references_are_stale_entries _ _ _ _ _ _ _
                     "Deployment default/x" scenarioB_Prune))
    as [Hold | (_ & Hnew)].
  - compute_done.
  - exfalso. revert Hold. compute_done.
  - exact Hnew.
Defined.

Lemma X15_witness_scenarioB :
  (GetGeneration (owner scenarioB) > lastAppliedGen scenarioB
   /\ Prune scenarioB fakeUpdateStatus (emptyWorld clusterXY)
      = Returned (scenarioB_pruned, scenarioB_world,
                  ({| Pruned := ["Deployment default/x"]; Skipped := [] |}, None)))
  /\ (length (children scenarioB_pruned) + 1 + 0
      = length (children scenarioB) + 0 + 0)%nat.
Proof.
  assert (H1 : GetGeneration (owner scenarioB) > lastAppliedGen scenarioB)
    by (vm_compute; reflexivity).
  split; [split; [exact H1 | exact scenarioB_Prune]|].
  exact (proj2 (X15_every_entry_accounted_once _ _ _ _ _ _ _ H1 scenarioB_Prune)
           eq_refl).
Defined.

Lemma X16_witness_deployment_Y :
  (scheme scenarioB = Some fakeScheme
   /\ ObjectKinds fakeScheme (testDeployment "y" "uid-y")
      = Ok [schema.mkGroupVersionKind "apps" "v1" "Deployment"]
   /\ @ParseGroupVersion fakeKubernetes
        (@GroupVersionString fakeKubernetes
           (schema.GroupVersionOf
              (schema.mkGroupVersionKind "apps" "v1" "Deployment")))
      = Ok (schema.GroupVersionOf
              (schema.mkGroupVersionKind "apps" "v1" "Deployment"))
   /\ New fakeScheme (schema.mkGroupVersionKind "apps" "v1" "Deployment")
      = Ok (ClientObject (mkObject "Deployment" "" "" "" 0)))
  /\ makeObjectReference scenarioB (testDeployment "y" "uid-y")
     = Ok (deploymentRef "y" "uid-y")
  /\ objectFromReference scenarioB (deploymentRef "y" "uid-y")
     = Returned (Ok (deploymentHandle "y")).
Proof.
  assert (H1 : scheme scenarioB = Some fakeScheme) by reflexivity.
  assert (H2 : ObjectKinds fakeScheme (testDeployment "y" "uid-y")
               = Ok [schema.mkGroupVersionKind "apps" "v1" "Deployment"])
    by reflexivity.
  assert (H3 : @ParseGroupVersion fakeKubernetes
                 (@GroupVersionString fakeKubernetes
                    (schema.GroupVersionOf
                       (schema.mkGroupVersionKind "apps" "v1" "Deployment")))
               = Ok (schema.GroupVersionOf
                       (schema.mkGroupVersionKind "apps" "v1" "Deployment")))
    by reflexivity.
  assert (H4 : New fakeScheme (schema.mkGroupVersionKind "apps" "v1" "Deployment")
               = Ok (ClientObject (mkObject "Deployment" "" "" "" 0)))
    by reflexivity.
  split; [repeat (split; [assumption|]); assumption|].
  destruct (X16_reference_leads_back_to_the_resource scenarioB fakeScheme
              (testDeployment "y" "uid-y") (mkObject "Deployment" "" "" "" 0)
              (schema.mkGroupVersionKind "apps" "v1" "Deployment") []
              H1 H2 H3 H4)
    as (ref & handle & Href & _ & Hobj & -> & _).
  vm_compute in Href. injection Href as <-.
  split; [reflexivity | exact Hobj].
Defined.

Lemma X17_witness_no_options :
  Forall (fun opt : Option => forall s, opt <> OptScheme s) []
  /\ (exists err,
        MarkReconciled
          (session (NewPruner fakeClient (testOwner 1) ledgerXY []) scenarioB_steps)
          (testDeployment "x" "uid-x")
        = (session (NewPruner fakeClient (testOwner 1) ledgerXY []) scenarioB_steps,
           Some err))
  /\ children (session (NewPruner fakeClient (testOwner 1) ledgerXY [])
                 scenarioB_steps) = ledgerXY.
Proof.
  assert (H : Forall (fun opt : Option => forall s, opt <> OptScheme s) [])
    by constructor.
  split; [exact H|].
  destruct (X17_no_scheme_no_marking fakeClient (testOwner 1) ledgerXY []
              scenarioB_steps (testDeployment "x" "uid-x") H)
    as (Hmark & Hch & _).
  split; [exact Hmark | exact Hch].
Defined.

Lemma X18_witness_scenarioB :
  (Forall (fun opt : Option => forall h, opt <> OptErrorHandler h) withFakeScheme
   /\ Prune scenarioB fakeUpdateStatus (emptyWorld clusterXY)
      = Returned (scenarioB_pruned, scenarioB_world,
                  ({| Pruned := ["Deployment default/x"]; Skipped := [] |}, None)))
  /\ exists objs,
       log scenarioB_world
       = log (emptyWorld clusterXY) ++ (EvDelete <$> objs) ++ [EvUpdateStatus]
       /\ length (Pruned {| Pruned := ["Deployment default/x"]; Skipped := [] |})
          = length objs.
Proof.
  assert (H : Forall (fun opt : Option => forall h, opt <> OptErrorHandler h)
                withFakeScheme)
    by (repeat constructor; intros h; discriminate).
  split; [split; [exact H | exact scenarioB_Prune]|].
  exact (X18_default_policy_success_means_clean_deletes fakeClient (testOwner 2)
           ledgerXY withFakeScheme scenarioB_steps fakeUpdateStatus
           (emptyWorld clusterXY) _ _ _ H scenarioB_Prune).
Defined.

Lemma X19_witness_scenarioLenient :
  ((forall err obj, errorHandler scenarioLenient err obj = None)
   /\ is_Some (scheme scenarioLenient)
   /\ dryRun scenarioLenient = false
   /\ GetGeneration (owner scenarioLenient) > lastAppliedGen scenarioLenient)
  /\ exists p' w' r err,
       Prune scenarioLenient fakeUpdateStatus (emptyWorld clusterLockedX)
       = Returned (p', w', (r, err))
       /\ children p'
          = filter (kept (desiredRefs scenarioLenient)
                      (lastAppliedGen scenarioLenient))
              (children scenarioLenient)
       /\ "Deployment default/locked" ∈ Pruned r.
Proof.
  assert (H1 : forall err obj, errorHandler scenarioLenient err obj = None)
    by (intros err obj; reflexivity).
  assert (H2 : is_Some (scheme scenarioLenient)) by (eexists; reflexivity).
  assert (H3 : dryRun scenarioLenient = false) by reflexivity.
  assert (H4 : GetGeneration (owner scenarioLenient)
               > lastAppliedGen scenarioLenient) by (vm_compute; reflexivity).
  split; [repeat (split; [assumption|]); assumption|].
  destruct (X19_lenient_policy_drops_every_stale_entry scenarioLenient
              fakeUpdateStatus (emptyWorld clusterLockedX) H1 H2 H3 H4)
    as (p' & w' & r & err & Hprune & Hch & Hpr).
  exists p', w', r, err. split; [exact Hprune|]. split; [exact Hch|].
  apply (Hpr (entry "locked" "uid-l" 1) (deploymentHandle "locked")).
  - compute_done.
  - split; [compute_done | reflexivity].
Defined.

(** The helper on the message that the test of a missing UID looks for. *)
Example contains_must_have_a_UID :
  contains "object default/test-deployment must have a UID (has it been created in the cluster?)"
    "must have a UID" = true
  /\ contains "must have" "must have a UID" = false.
Proof. split; vm_compute; reflexivity. Qed.
